(** * Counter service: a shallow embedding of [app/counter_service.py]

    The service is a stateless facade over a table of counter records.
    Every operation opens its own session, talks to the table, possibly
    reads the wall clock ([datetime.utcnow()]) and returns a record or
    [None].  We model

    - Python integers (ids, values) as [Z], names as [string];
    - a [datetime] as [Z] (microseconds since the epoch);
    - the table as the list of its rows in insertion order, together
      with the next value of the auto-increment key;
    - the wall clock as a function from the number of readings taken so
      far to the reading obtained, the number of readings being part of
      the state of the world;
    - a service call as a computation in a state monad over that world.

    Storage failures (unreachable database, integer columns overflowing)
    are outside the model: the store always answers. *)

From Stdlib Require Import ZArith List String Bool Lia PeanoNat DecimalString.
Import ListNotations.

Local Open Scope string_scope.
Local Open Scope Z_scope.

(** ** Data model *)

(** Modelled from the spec: [app/models.py] is not part of the sources at
    hand.  A persisted [Counter] has an integer [id] assigned by the store,
    a [name], a signed unbounded [value] and the two timestamps. *)
Record Counter : Type := mkCounter {
  id : Z;
  name : string;
  value : Z;
  created_at : Z;
  updated_at : Z
}.

(** Modelled from the spec: the payload of [create_counter], whose fields
    [name] and [value] the service reads. *)
Record CounterCreate : Type := mkCounterCreate {
  create_name : string;
  create_value : Z
}.

(** Modelled from the spec: the payload of [update_counter]; [value] is
    [Optional[int]], [None] being the unset sentinel. *)
Record CounterUpdate : Type := mkCounterUpdate {
  update_value : option Z
}.

(** Attribute assignments [counter.value = v] and [counter.updated_at = t]. *)
Definition set_value (c : Counter) (v : Z) : Counter :=
  mkCounter (id c) (name c) v (created_at c) (updated_at c).

Definition set_updated_at (c : Counter) (t : Z) : Counter :=
  mkCounter (id c) (name c) (value c) (created_at c) t.

(** ** The world: table and clock *)

Record Store : Type := mkStore {
  rows : list Counter;
  next_id : Z
}.

Record World : Type := mkWorld {
  store : Store;
  ticks : nat
}.

(** A freshly initialised schema: no rows, keys start at 1, clock unread. *)
Definition empty_world : World := mkWorld (mkStore [] 1) 0.

(** ** Session monad *)

Definition Session (A : Type) : Type := World -> A * World.

Definition ret {A : Type} (a : A) : Session A := fun w => (a, w).

Definition bind {A B : Type} (m : Session A) (k : A -> Session B) : Session B :=
  fun w => let (a, w') := m w in k a w'.

Notation "x <- m ;; k" := (bind m (fun x => k))
  (at level 61, m at next level, right associativity).
Notation "m ;; k" := (bind m (fun _ => k))
  (at level 61, right associativity).

Definition has_id (counter_id : Z) (c : Counter) : bool := id c =? counter_id.

Definition has_name (n : string) (c : Counter) : bool := String.eqb (name c) n.

(** [session.get(Counter, counter_id)]: the row with that primary key. *)
Definition session_get (counter_id : Z) : Session (option Counter) :=
  fun w => (find (has_id counter_id) (rows (store w)), w).

(** [session.exec(select(Counter).where(Counter.name == n)).first()].  The
    query has no ordering clause: when several rows carry the name, which
    of them comes first is the store's choice; the model takes the one
    inserted earliest.  With at most one matching row there is no choice. *)
Definition select_first_by_name (n : string) : Session (option Counter) :=
  fun w => (find (has_name n) (rows (store w)), w).

(** [session.add(counter); session.commit()] for an object loaded in this
    session: the row with its key is overwritten by the object's fields. *)
Definition session_commit (c : Counter) : Session unit :=
  fun w =>
    (tt, mkWorld (mkStore (map (fun r => if has_id (id c) r then c else r)
                               (rows (store w)))
                          (next_id (store w)))
                 (ticks w)).

(** [session.refresh(counter)]: the object's fields are read back from its
    row. *)
Definition session_refresh (c : Counter) : Session Counter :=
  fun w => (match find (has_id (id c)) (rows (store w)) with
            | Some r => r
            | None => c
            end, w).

Section Service.

(** The readings of [datetime.utcnow()], in the order they are taken. *)
Variable clock : nat -> Z.

Definition utcnow : Session Z :=
  fun w => (clock (ticks w), mkWorld (store w) (S (ticks w))).

(** Modelled from the spec: [Counter(name=n, value=v)] followed by
    [session.add], [session.commit], [session.refresh] is the store's
    [insert]: it assigns [created_at] and [updated_at] from the clock, gives
    the row the next key and returns the fully populated record. *)
Definition session_insert (n : string) (v : Z) : Session Counter :=
  tc <- utcnow ;;
  tu <- utcnow ;;
  fun w =>
    let c := mkCounter (next_id (store w)) n v tc tu in
    (c, mkWorld (mkStore (rows (store w) ++ [c]) (next_id (store w) + 1))
                (ticks w)).

(** ** The service, [CounterService] *)

Definition get_or_create_default_counter : Session Counter :=
  counter <- select_first_by_name "default" ;;
  match counter with
  | None => session_insert "default" 0
  | Some counter => ret counter
  end.

Definition get_counter (counter_id : Z) : Session (option Counter) :=
  session_get counter_id.

Definition create_counter (counter_data : CounterCreate) : Session Counter :=
  session_insert (create_name counter_data) (create_value counter_data).

Definition increment_counter (counter_id : Z) : Session (option Counter) :=
  counter <- session_get counter_id ;;
  match counter with
  | None => ret None
  | Some counter =>
      let counter := set_value counter (value counter + 1) in
      now <- utcnow ;;
      let counter := set_updated_at counter now in
      session_commit counter ;;
      counter <- session_refresh counter ;;
      ret (Some counter)
  end.

Definition decrement_counter (counter_id : Z) : Session (option Counter) :=
  counter <- session_get counter_id ;;
  match counter with
  | None => ret None
  | Some counter =>
      let counter := set_value counter (value counter - 1) in
      now <- utcnow ;;
      let counter := set_updated_at counter now in
      session_commit counter ;;
      counter <- session_refresh counter ;;
      ret (Some counter)
  end.

Definition update_counter (counter_id : Z) (counter_data : CounterUpdate)
  : Session (option Counter) :=
  counter <- session_get counter_id ;;
  match counter with
  | None => ret None
  | Some counter =>
      match update_value counter_data with
      | Some v =>
          let counter := set_value counter v in
          now <- utcnow ;;
          let counter := set_updated_at counter now in
          session_commit counter ;;
          counter <- session_refresh counter ;;
          ret (Some counter)
      | None => ret (Some counter)
      end
  end.

Definition reset_counter (counter_id : Z) : Session (option Counter) :=
  update_counter counter_id (mkCounterUpdate (Some 0)).

(** ** Sequences of service calls *)

Inductive Call : Type :=
| CallGetOrCreateDefault
| CallCreate (counter_data : CounterCreate)
| CallGet (counter_id : Z)
| CallIncrement (counter_id : Z)
| CallDecrement (counter_id : Z)
| CallUpdate (counter_id : Z) (counter_data : CounterUpdate)
| CallReset (counter_id : Z).

(** The world after one call, its result dropped. *)
Definition step (c : Call) (w : World) : World :=
  match c with
  | CallGetOrCreateDefault => snd (get_or_create_default_counter w)
  | CallCreate d => snd (create_counter d w)
  | CallGet i => snd (get_counter i w)
  | CallIncrement i => snd (increment_counter i w)
  | CallDecrement i => snd (decrement_counter i w)
  | CallUpdate i d => snd (update_counter i d w)
  | CallReset i => snd (reset_counter i w)
  end.

Definition run (cs : list Call) (w : World) : World :=
  fold_left (fun w c => step c w) cs w.

(** The same call [n] times in a row. *)
Definition times {A : Type} (n : nat) (m : Session A) (w : World) : World :=
  Nat.iter n (fun w => snd (m w)) w.

End Service.

(** ** Predicates on worlds *)

(** The identifier is the key of some row. *)
Definition present (counter_id : Z) (w : World) : Prop :=
  In counter_id (map id (rows (store w))).

(** Primary-key discipline: keys are pairwise distinct and all below the
    next key to be handed out. *)
Definition store_wf (w : World) : Prop :=
  NoDup (map id (rows (store w))) /\
  Forall (fun c => id c < next_id (store w)) (rows (store w)).

(** Successive readings of the clock never go back. *)
Definition clock_monotone (clock : nat -> Z) : Prop :=
  forall i j : nat, (i <= j)%nat -> clock i <= clock j.

(** Every row was last touched no later than any reading still to come,
    and not before it was created. *)
Definition timestamps_ok (clock : nat -> Z) (w : World) : Prop :=
  Forall (fun c => created_at c <= updated_at c /\
                   forall j : nat, (ticks w <= j)%nat -> updated_at c <= clock j)
         (rows (store w)).

(** A clock of coarse resolution: four successive readings share a value. *)
Definition coarse_clock (k : nat) : Z := 1000 + Z.of_nat (k / 4).

(** A wall clock set back after its second reading. *)
Definition set_back_clock (k : nat) : Z := if (k <? 2)%nat then 1000 else 500.

(** A clock that advances at every reading. *)
Definition fine_clock (k : nat) : Z := 1000 + Z.of_nat k.

(** The table after the row keyed like [c] has been overwritten by [c]. *)
Definition overwrite (c : Counter) (l : list Counter) : list Counter :=
  map (fun r => if has_id (id c) r then c else r) l.

(** The world after the row keyed like [c'] has been overwritten and the
    clock read once. *)
Definition touched (c' : Counter) (w : World) : World :=
  mkWorld (mkStore (overwrite c' (rows (store w))) (next_id (store w)))
          (S (ticks w)).

(** The three ways a call can leave the world: as it was, with one row
    appended by [session_insert], or with one row overwritten by a record
    that keeps its key, name and creation time and carries the clock
    reading of the call. *)
Inductive effect (clock : nat -> Z) (w : World) : World -> Prop :=
| effect_none : effect clock w w
| effect_insert (n : string) (v : Z) :
    effect clock w (snd (session_insert clock n v w))
| effect_touch (c c' : Counter) :
    find (has_id (id c)) (rows (store w)) = Some c ->
    id c' = id c ->
    name c' = name c ->
    created_at c' = created_at c ->
    updated_at c' = clock (ticks w) ->
    effect clock w (touched c' w).

(** ** A ledger for one counter

    What a call means for the value of the counter [i], told without the
    store: the account the service is compared with. *)
Definition ledger_step (i : Z) (call : Call) (v : Z) : Z :=
  match call with
  | CallIncrement j => if j =? i then v + 1 else v
  | CallDecrement j => if j =? i then v - 1 else v
  | CallUpdate j d =>
      if j =? i then match update_value d with Some x => x | None => v end
      else v
  | CallReset j => if j =? i then 0 else v
  | CallGetOrCreateDefault | CallCreate _ | CallGet _ => v
  end.

Definition ledger (i : Z) (cs : list Call) (v : Z) : Z :=
  fold_left (fun v call => ledger_step i call v) cs v.

(** The call is [create_counter] with the name "default". *)
Definition creates_default (call : Call) : bool :=
  match call with
  | CallCreate d => String.eqb (create_name d) "default"
  | _ => false
  end.

(** How many rows carry the name "default". *)
Definition default_count (w : World) : nat :=
  List.length (filter (has_name "default") (rows (store w))).

(** The record kept: same key, name and creation time. *)
Definition same_counter (c c' : Counter) : Prop :=
  id c' = id c /\ name c' = name c /\ created_at c' = created_at c.

(** ** The pages, [app/counter_ui.py]

    A page is what a browser tab holds once a page function has run: the
    tab storage (only its key "counter_id" is used), the elements built
    before the refreshable display, the display itself, the elements built
    after it, and the notifications raised so far.  Elements are listed in
    document order; cards, rows and columns only lay them out and, like the
    style classes, are left out.  The wait for the client connection before
    the tab storage is used has no effect on what is built and is left out
    too. *)

Inductive NotifyType : Type := positive | negative | info.

Inductive Handler : Type := HandleIncrement | HandleDecrement | HandleReset.

Inductive Element : Type :=
| Label (text : string)
| Button (text : string) (on_click : Handler)
| Link (text target : string).

Record Page : Type := mkPage {
  tab_counter_id : option Z;
  header : list Element;
  display : list Element;
  footer : list Element;
  notifications : list (string * NotifyType)
}.

(** Python's [str] on an integer: decimal digits, a minus sign when
    negative. *)
Definition str (z : Z) : string := NilZero.string_of_int (Z.to_int z).

Section Pages.

Variable clock : nat -> Z.

(** [updated_at.strftime('%Y-%m-%d %H:%M:%S')], the library's rendering of a
    timestamp. *)
Variable strftime : Z -> string.

(** The card of [counter_display], built when the counter is found. *)
Definition counter_card (current_counter : Counter) : list Element :=
  [Label "Counter Application";
   Label "Count:";
   Label (str (value current_counter));
   Button "-" HandleDecrement;
   Button "+" HandleIncrement;
   Button "Reset" HandleReset;
   Label ("Last updated: " ++ strftime (updated_at current_counter))].

Definition counter_display (tab : option Z) : Session (list Element) :=
  match tab with
  | None => ret [Label "No counter ID found"]
  | Some counter_id =>
      current_counter <- get_counter counter_id ;;
      match current_counter with
      | None => ret [Label "Counter not found"]
      | Some current_counter => ret (counter_card current_counter)
      end
  end.

(** The outcome of a click handler: whether the display is to be refreshed
    and the notification raised, if any. *)
Definition handle_increment (tab : option Z)
  : Session (bool * list (string * NotifyType)) :=
  match tab with
  | Some counter_id =>
      result <- increment_counter clock counter_id ;;
      match result with
      | Some _ => ret (true, [("Counter incremented!", positive)])
      | None => ret (false, [("Failed to increment counter", negative)])
      end
  | None => ret (false, [])
  end.

Definition handle_decrement (tab : option Z)
  : Session (bool * list (string * NotifyType)) :=
  match tab with
  | Some counter_id =>
      result <- decrement_counter clock counter_id ;;
      match result with
      | Some _ => ret (true, [("Counter decremented!", positive)])
      | None => ret (false, [("Failed to decrement counter", negative)])
      end
  | None => ret (false, [])
  end.

Definition handle_reset (tab : option Z)
  : Session (bool * list (string * NotifyType)) :=
  match tab with
  | Some counter_id =>
      result <- reset_counter clock counter_id ;;
      match result with
      | Some _ => ret (true, [("Counter reset to 0!", info)])
      | None => ret (false, [("Failed to reset counter", negative)])
      end
  | None => ret (false, [])
  end.

Definition handler (h : Handler) (tab : option Z)
  : Session (bool * list (string * NotifyType)) :=
  match h with
  | HandleIncrement => handle_increment tab
  | HandleDecrement => handle_decrement tab
  | HandleReset => handle_reset tab
  end.

(** A click on the button bound to [h]: the handler runs, and when it asks
    for it [counter_display.refresh()] builds the display anew. *)
Definition click (h : Handler) (p : Page) : Session Page :=
  outcome <- handler h (tab_counter_id p) ;;
  shown <- (if fst outcome then counter_display (tab_counter_id p)
            else ret (display p)) ;;
  ret (mkPage (tab_counter_id p) (header p) shown (footer p)
              (notifications p ++ snd outcome)).

Definition clicks (hs : list Handler) (p : Page) (w : World) : Page * World :=
  fold_left (fun pw h => click h (fst pw) (snd pw)) hs (p, w).

(** [counter_page], the page at "/counter"; [tab] is the tab storage the
    browser tab comes with. *)
Definition counter_page (tab : option Z) : Session Page :=
  counter <- get_or_create_default_counter clock ;;
  let tab := Some (id counter) in
  shown <- counter_display tab ;;
  ret (mkPage tab [] shown [Link "← Back to Home" "/"] []).

(** [specific_counter_page], the page at "/counter/{counter_id:int}". *)
Definition specific_counter_page (counter_id : Z) (tab : option Z)
  : Session Page :=
  counter <- get_counter counter_id ;;
  match counter with
  | None =>
      ret (mkPage tab
             [Label "Counter Not Found";
              Label ("Counter with ID " ++ str counter_id ++ " does not exist.");
              Link "← Go to Default Counter" "/counter"]
             [] [] [])
  | Some counter =>
      let tab := Some (id counter) in
      let title := if String.eqb (name counter) "default" then []
                   else [Label ("Counter: " ++ name counter)] in
      shown <- counter_display tab ;;
      ret (mkPage tab title shown [Link "← Back to Home" "/"] [])
  end.

End Pages.

(** The message a handler raises when the service returns a record, and the
    one it raises when the service returns [None]. *)
Definition success_notice (h : Handler) : string * NotifyType :=
  match h with
  | HandleIncrement => ("Counter incremented!", positive)
  | HandleDecrement => ("Counter decremented!", positive)
  | HandleReset => ("Counter reset to 0!", info)
  end.

Definition failure_notice (h : Handler) : string * NotifyType :=
  match h with
  | HandleIncrement => ("Failed to increment counter", negative)
  | HandleDecrement => ("Failed to decrement counter", negative)
  | HandleReset => ("Failed to reset counter", negative)
  end.

(** What a click on a button does to the value shown. *)
Definition click_value (h : Handler) (v : Z) : Z :=
  match h with
  | HandleIncrement => v + 1
  | HandleDecrement => v - 1
  | HandleReset => 0
  end.

(** A rendering of timestamps to run the pages with: the number itself. *)
Definition plain_strftime (t : Z) : string := str t.

(** * Properties *)

(** The scenario of the specification, on a clock that always advances. *)
Example scenario_values :
  let w1 := step fine_clock (CallCreate (mkCounterCreate "a" 5)) empty_world in
  let w2 := step fine_clock (CallIncrement 1) w1 in
  let w3 := times 2 (decrement_counter fine_clock 1) w2 in
  let w4 := step fine_clock (CallReset 1) w3 in
  (option_map value (fst (get_counter 1 w2)),
   option_map value (fst (get_counter 1 w3)),
   option_map value (fst (get_counter 1 w4))) = (Some 6, Some 4, Some 0).
Proof. reflexivity. Qed.

(** ** Rows and keys *)

Lemma has_id_true (i : Z) (c : Counter) : has_id i c = true <-> id c = i.
Proof. unfold has_id. apply Z.eqb_eq. Qed.

Lemma has_id_false (i : Z) (c : Counter) : has_id i c = false <-> id c <> i.
Proof. unfold has_id. apply Z.eqb_neq. Qed.

Lemma find_has_id_key (i : Z) (l : list Counter) (c : Counter) :
  find (has_id i) l = Some c -> id c = i.
Proof.
  intros H. apply find_some in H. now apply has_id_true.
Qed.

Lemma find_has_id_none (i : Z) (l : list Counter) :
  find (has_id i) l = None <-> ~ In i (map id l).
Proof.
  induction l as [|r l IH]; simpl.
  - tauto.
  - destruct (has_id i r) eqn:E.
    + apply has_id_true in E. split; [discriminate | intros H; exfalso; auto].
    + apply has_id_false in E. rewrite IH. tauto.
Qed.

Lemma find_has_id_app_fresh (i : Z) (l : list Counter) (c : Counter) :
  ~ In i (map id l) -> id c = i -> find (has_id i) (l ++ [c]) = Some c.
Proof.
  intros Hn Hc. induction l as [|r l IH]; simpl in *.
  - apply has_id_true in Hc. now rewrite Hc.
  - destruct (has_id i r) eqn:E.
    + apply has_id_true in E. exfalso; auto.
    + apply IH. tauto.
Qed.

Lemma find_has_id_app_old (i : Z) (l : list Counter) (c r : Counter) :
  find (has_id i) l = Some r -> find (has_id i) (l ++ [c]) = Some r.
Proof.
  induction l as [|x l IH]; simpl; [discriminate|].
  destruct (has_id i x); auto.
Qed.

Lemma find_overwrite_same (i : Z) (l : list Counter) (c c' : Counter) :
  find (has_id i) l = Some c -> id c' = i ->
  find (has_id i) (overwrite c' l) = Some c'.
Proof.
  intros Hf Hi. subst i. unfold overwrite.
  induction l as [|r l IH]; simpl in *; [discriminate|].
  destruct (has_id (id c') r) eqn:E.
  - assert (Hc : has_id (id c') c' = true) by now apply has_id_true.
    now rewrite Hc.
  - rewrite E. auto.
Qed.

Lemma find_overwrite_other (j : Z) (l : list Counter) (c' : Counter) :
  j <> id c' -> find (has_id j) (overwrite c' l) = find (has_id j) l.
Proof.
  intros Hj. unfold overwrite.
  induction l as [|r l IH]; simpl; [reflexivity|].
  destruct (has_id (id c') r) eqn:E.
  - apply has_id_true in E.
    assert (H1 : has_id j c' = false) by (apply has_id_false; congruence).
    assert (H2 : has_id j r = false) by (apply has_id_false; congruence).
    now rewrite H1, H2.
  - destruct (has_id j r); auto.
Qed.

Lemma map_id_overwrite (c' : Counter) (l : list Counter) :
  map id (overwrite c' l) = map id l.
Proof.
  unfold overwrite. induction l as [|r l IH]; simpl; [reflexivity|].
  rewrite IH. destruct (has_id (id c') r) eqn:E; [|reflexivity].
  apply has_id_true in E. now rewrite E.
Qed.

Lemma length_overwrite (c' : Counter) (l : list Counter) :
  List.length (overwrite c' l) = List.length l.
Proof. unfold overwrite. apply length_map. Qed.

Lemma filter_overwrite (c' : Counter) (l : list Counter) :
  filter (fun r => negb (has_id (id c') r)) (overwrite c' l) =
  filter (fun r => negb (has_id (id c') r)) l.
Proof.
  unfold overwrite. induction l as [|r l IH]; simpl; [reflexivity|].
  destruct (has_id (id c') r) eqn:E; simpl.
  - assert (Hc : has_id (id c') c' = true) by now apply has_id_true.
    rewrite Hc. simpl. exact IH.
  - rewrite E. simpl. now rewrite IH.
Qed.

Lemma In_overwrite (c' r : Counter) (l : list Counter) :
  In r (overwrite c' l) -> r = c' \/ In r l.
Proof.
  unfold overwrite. rewrite in_map_iff. intros [x [Hx Hin]].
  destruct (has_id (id c') x); subst; auto.
Qed.

(** With distinct keys, overwriting touches one row only: any other row is
    found again unchanged. *)
Lemma In_overwrite_keep (c' r : Counter) (l : list Counter) :
  In r l -> id r <> id c' -> In r (overwrite c' l).
Proof.
  intros Hin Hne. unfold overwrite. apply in_map_iff. exists r. split; auto.
  assert (E : has_id (id c') r = false) by now apply has_id_false.
  now rewrite E.
Qed.

(** ** What each call does *)

Section Calls.

Variable clock : nat -> Z.

Lemma session_get_eq (i : Z) (w : World) :
  session_get i w = (find (has_id i) (rows (store w)), w).
Proof. reflexivity. Qed.

Lemma increment_counter_absent (i : Z) (w : World) :
  find (has_id i) (rows (store w)) = None ->
  increment_counter clock i w = (None, w).
Proof.
  intros H. unfold increment_counter, bind, session_get. now rewrite H.
Qed.

Lemma decrement_counter_absent (i : Z) (w : World) :
  find (has_id i) (rows (store w)) = None ->
  decrement_counter clock i w = (None, w).
Proof.
  intros H. unfold decrement_counter, bind, session_get. now rewrite H.
Qed.

Lemma update_counter_absent (i : Z) (d : CounterUpdate) (w : World) :
  find (has_id i) (rows (store w)) = None ->
  update_counter clock i d w = (None, w).
Proof.
  intros H. unfold update_counter, bind, session_get. now rewrite H.
Qed.

Lemma increment_counter_found (i : Z) (w : World) (c : Counter) :
  find (has_id i) (rows (store w)) = Some c ->
  let c' := mkCounter (id c) (name c) (value c + 1) (created_at c)
                      (clock (ticks w)) in
  increment_counter clock i w = (Some c', touched c' w).
Proof.
  intros H c'.
  unfold increment_counter, bind, session_get, utcnow, session_commit,
    session_refresh, ret. rewrite H. cbn [store rows ticks next_id].
  unfold set_updated_at, set_value. cbn [id name value created_at updated_at].
  fold c'. change (map _ (rows (store w))) with (overwrite c' (rows (store w))).
  rewrite (find_overwrite_same (id c') _ c c'); [reflexivity | | reflexivity].
  cbn [id c']. now rewrite (find_has_id_key _ _ _ H).
Qed.

Lemma decrement_counter_found (i : Z) (w : World) (c : Counter) :
  find (has_id i) (rows (store w)) = Some c ->
  let c' := mkCounter (id c) (name c) (value c - 1) (created_at c)
                      (clock (ticks w)) in
  decrement_counter clock i w = (Some c', touched c' w).
Proof.
  intros H c'.
  unfold decrement_counter, bind, session_get, utcnow, session_commit,
    session_refresh, ret. rewrite H. cbn [store rows ticks next_id].
  unfold set_updated_at, set_value. cbn [id name value created_at updated_at].
  fold c'. change (map _ (rows (store w))) with (overwrite c' (rows (store w))).
  rewrite (find_overwrite_same (id c') _ c c'); [reflexivity | | reflexivity].
  cbn [id c']. now rewrite (find_has_id_key _ _ _ H).
Qed.

Lemma update_counter_found (i v : Z) (w : World) (c : Counter) :
  find (has_id i) (rows (store w)) = Some c ->
  let c' := mkCounter (id c) (name c) v (created_at c) (clock (ticks w)) in
  update_counter clock i (mkCounterUpdate (Some v)) w = (Some c', touched c' w).
Proof.
  intros H c'.
  unfold update_counter, bind, session_get, utcnow, session_commit,
    session_refresh, ret. rewrite H. cbn [store rows ticks next_id update_value].
  unfold set_updated_at, set_value. cbn [id name value created_at updated_at].
  fold c'. change (map _ (rows (store w))) with (overwrite c' (rows (store w))).
  rewrite (find_overwrite_same (id c') _ c c'); [reflexivity | | reflexivity].
  cbn [id c']. now rewrite (find_has_id_key _ _ _ H).
Qed.

Lemma update_counter_unset (i : Z) (w : World) (c : Counter) :
  find (has_id i) (rows (store w)) = Some c ->
  update_counter clock i (mkCounterUpdate None) w = (Some c, w).
Proof.
  intros H. unfold update_counter, bind, session_get. now rewrite H.
Qed.

Lemma session_insert_eq (n : string) (v : Z) (w : World) :
  let c := mkCounter (next_id (store w)) n v (clock (ticks w))
                     (clock (S (ticks w))) in
  session_insert clock n v w =
  (c, mkWorld (mkStore (rows (store w) ++ [c]) (next_id (store w) + 1))
              (S (S (ticks w)))).
Proof. reflexivity. Qed.

End Calls.

(** ** Lookups, absence and the frame of a call *)

Section Claims.

Variable clock : nat -> Z.

Lemma absent_find (i : Z) (w : World) :
  ~ present i w -> find (has_id i) (rows (store w)) = None.
Proof. intros H. now apply find_has_id_none. Qed.

(** C1: for an id that is the key of no row, [get_counter],
    [increment_counter], [decrement_counter], [update_counter] (whatever the
    payload) and [reset_counter] all return [None], and the world after the
    call, table and clock, is the world before it. *)
Theorem absent_id_gives_none (i : Z) (d : CounterUpdate) (w : World) :
  ~ present i w ->
  get_counter i w = (None, w) /\
  increment_counter clock i w = (None, w) /\
  decrement_counter clock i w = (None, w) /\
  update_counter clock i d w = (None, w) /\
  reset_counter clock i w = (None, w).
Proof.
  intros H. apply absent_find in H.
  repeat split.
  - unfold get_counter. rewrite session_get_eq. now rewrite H.
  - now apply increment_counter_absent.
  - now apply decrement_counter_absent.
  - now apply update_counter_absent.
  - unfold reset_counter. now apply update_counter_absent.
Qed.

(** C10: [get_counter] is a pure read: whatever the id, present or not, the
    world after the call is the world before it. *)
Theorem get_counter_reads_only (i : Z) (w : World) :
  snd (get_counter i w) = w.
Proof. reflexivity. Qed.

(** C4: [reset_counter] returns what [update_counter] returns on the payload
    [value = 0] and leaves the same world; for a counter that exists, the
    record returned and the row stored afterwards have value 0, whatever
    the value was. *)
Theorem reset_counter_is_update_to_zero (i : Z) (w : World) :
  reset_counter clock i w = update_counter clock i (mkCounterUpdate (Some 0)) w /\
  (forall c : Counter,
      fst (get_counter i w) = Some c ->
      exists c' : Counter,
        fst (reset_counter clock i w) = Some c' /\
        value c' = 0 /\
        fst (get_counter i (snd (reset_counter clock i w))) = Some c').
Proof.
  split; [reflexivity|].
  intros c Hc. cbn in Hc.
  unfold reset_counter. rewrite (update_counter_found clock i 0 w c Hc).
  eexists. split; [reflexivity|]. split; [reflexivity|].
  cbn [fst snd get_counter session_get touched store rows].
  apply (find_overwrite_same i _ c); [exact Hc|].
  cbn. now apply find_has_id_key in Hc.
Qed.

(** C9: resetting a counter whose value is already 0 goes through the
    mutation path: the record returned has value 0 and carries the clock
    reading taken by the call as its [updated_at], the row is rewritten and
    the clock has been read once; the unset payload, by contrast, reads no
    clock and returns the row as it was. *)
Theorem reset_counter_at_zero_refreshes (i : Z) (w : World) (c : Counter) :
  fst (get_counter i w) = Some c ->
  value c = 0 ->
  exists c' : Counter,
    reset_counter clock i w = (Some c', touched c' w) /\
    value c' = 0 /\
    updated_at c' = clock (ticks w) /\
    ticks (snd (reset_counter clock i w)) = S (ticks w) /\
    fst (get_counter i (snd (reset_counter clock i w))) = Some c' /\
    update_counter clock i (mkCounterUpdate None) w = (Some c, w).
Proof.
  intros Hc _. cbn in Hc.
  unfold reset_counter. rewrite (update_counter_found clock i 0 w c Hc).
  eexists. split; [reflexivity|].
  repeat split.
  - cbn [fst snd get_counter session_get touched store rows].
    apply (find_overwrite_same i _ c); [exact Hc|].
    cbn. now apply find_has_id_key in Hc.
  - now apply update_counter_unset.
Qed.


(** C8: [increment_counter], [decrement_counter], [update_counter] and
    [reset_counter] on an id leave every row with another key exactly as it
    was: the rows with other keys, in table order, are the same before and
    after, and no row is added or removed. *)
Theorem other_rows_untouched (i : Z) (d : CounterUpdate) (w : World) :
  let others (w' : World) :=
    filter (fun r => negb (has_id i r)) (rows (store w')) in
  let size (w' : World) := List.length (rows (store w')) in
  (others (snd (increment_counter clock i w)) = others w /\
   size (snd (increment_counter clock i w)) = size w) /\
  (others (snd (decrement_counter clock i w)) = others w /\
   size (snd (decrement_counter clock i w)) = size w) /\
  (others (snd (update_counter clock i d w)) = others w /\
   size (snd (update_counter clock i d w)) = size w) /\
  (others (snd (reset_counter clock i w)) = others w /\
   size (snd (reset_counter clock i w)) = size w).
Proof.
  intros others size. unfold others, size.
  assert (Htouch : forall c' : Counter, id c' = i ->
            filter (fun r => negb (has_id i r)) (rows (store (touched c' w))) =
            filter (fun r => negb (has_id i r)) (rows (store w)) /\
            List.length (rows (store (touched c' w))) =
            List.length (rows (store w))).
  { intros c' Hi. subst i. cbn [touched store rows].
    split; [apply filter_overwrite | apply length_overwrite]. }
  destruct (find (has_id i) (rows (store w))) as [c|] eqn:Hf.
  - pose proof (find_has_id_key _ _ _ Hf) as Hk.
    rewrite (increment_counter_found clock i w c Hf).
    rewrite (decrement_counter_found clock i w c Hf).
    unfold reset_counter.
    rewrite (update_counter_found clock i 0 w c Hf).
    cbn [snd].
    repeat apply conj; try (apply Htouch; exact Hk).
    + destruct d as [[v|]].
      * rewrite (update_counter_found clock i v w c Hf). apply Htouch; exact Hk.
      * now rewrite (update_counter_unset clock i w c Hf).
    + destruct d as [[v|]].
      * rewrite (update_counter_found clock i v w c Hf). apply Htouch; exact Hk.
      * now rewrite (update_counter_unset clock i w c Hf).
  - rewrite (increment_counter_absent clock i w Hf).
    rewrite (decrement_counter_absent clock i w Hf).
    unfold reset_counter.
    rewrite !(update_counter_absent clock i _ w Hf).
    cbn [snd]. tauto.
Qed.

End Claims.

(** ** The default counter, and counting up and down *)

Section Counting.

Variable clock : nat -> Z.

Lemma find_has_name_none (n : string) (l : list Counter) :
  ~ In n (map name l) -> find (has_name n) l = None.
Proof.
  induction l as [|r l IH]; simpl; [reflexivity|].
  intros H. unfold has_name at 1.
  destruct (String.eqb (name r) n) eqn:E.
  - apply String.eqb_eq in E. exfalso; auto.
  - apply IH. tauto.
Qed.

Lemma filter_has_name_none (n : string) (l : list Counter) :
  ~ In n (map name l) -> filter (has_name n) l = [].
Proof.
  induction l as [|r l IH]; simpl; [reflexivity|].
  intros H. unfold has_name at 1.
  destruct (String.eqb (name r) n) eqn:E.
  - apply String.eqb_eq in E. exfalso; auto.
  - apply IH. tauto.
Qed.

Lemma find_has_name_app_new (n : string) (l : list Counter) (c : Counter) :
  ~ In n (map name l) -> name c = n -> find (has_name n) (l ++ [c]) = Some c.
Proof.
  intros Hn Hc. induction l as [|r l IH]; simpl in *.
  - unfold has_name. rewrite Hc, String.eqb_refl. reflexivity.
  - unfold has_name at 1.
    destruct (String.eqb (name r) n) eqn:E.
    + apply String.eqb_eq in E. exfalso; auto.
    + apply IH. tauto.
Qed.

(** C5: in a store with no row named "default",
    [get_or_create_default_counter] appends a row named "default" with
    value 0 and returns it; called again at once it returns that same
    record (same id, same name), leaves the world as the first call left
    it, and the rows named "default" are then that one row. *)
Theorem default_counter_is_created_once (w : World) :
  ~ In "default" (map name (rows (store w))) ->
  let c1 := fst (get_or_create_default_counter clock w) in
  let w1 := snd (get_or_create_default_counter clock w) in
  let c2 := fst (get_or_create_default_counter clock w1) in
  let w2 := snd (get_or_create_default_counter clock w1) in
  name c1 = "default" /\ value c1 = 0 /\
  rows (store w1) = (rows (store w) ++ [c1])%list /\
  id c2 = id c1 /\ name c2 = "default" /\
  w2 = w1 /\
  filter (has_name "default") (rows (store w2)) = [c1] /\
  (List.length (filter (has_name "default") (rows (store w2))) <= 1)%nat.
Proof.
  intros Hn.
  assert (E1 : get_or_create_default_counter clock w =
               session_insert clock "default" 0 w).
  { unfold get_or_create_default_counter, bind, select_first_by_name.
    now rewrite (find_has_name_none _ _ Hn). }
  rewrite E1. rewrite session_insert_eq. cbn [fst snd].
  set (c1 := mkCounter (next_id (store w)) "default" 0 (clock (ticks w))
                       (clock (S (ticks w)))).
  set (w1 := mkWorld _ _).
  assert (E2 : get_or_create_default_counter clock w1 = (c1, w1)).
  { unfold get_or_create_default_counter, bind, select_first_by_name.
    cbn [w1 store rows].
    now rewrite (find_has_name_app_new "default" _ c1 Hn eq_refl). }
  rewrite E2. cbn [fst snd].
  assert (E3 : filter (has_name "default") (rows (store w1)) = [c1]).
  { cbn [w1 store rows]. rewrite filter_app.
    now rewrite (filter_has_name_none _ _ Hn). }
  rewrite E3. cbn [List.length]. repeat split; auto.
Qed.

Lemma times_succ {A : Type} (n : nat) (m : Session A) (w : World) :
  times (S n) m w = snd (m (times n m w)).
Proof. reflexivity. Qed.

Lemma times_increment_counter (i : Z) (n : nat) (w : World) (c : Counter) :
  find (has_id i) (rows (store w)) = Some c ->
  exists c' : Counter,
    find (has_id i) (rows (store (times n (increment_counter clock i) w))) = Some c' /\
    value c' = value c + Z.of_nat n /\ name c' = name c.
Proof.
  intros Hc. induction n as [|n IH].
  - exists c. cbn. split; [exact Hc | split; [lia | reflexivity]].
  - destruct IH as [c1 [H1 [Hv Hn]]]. rewrite times_succ.
    rewrite (increment_counter_found clock i _ c1 H1).
    eexists. cbn [snd touched store rows]. split.
    + apply (find_overwrite_same i _ c1); [exact H1|].
      cbn. now apply find_has_id_key in H1.
    + cbn [value name]. split; [lia | exact Hn].
Qed.

Lemma times_decrement_counter (i : Z) (n : nat) (w : World) (c : Counter) :
  find (has_id i) (rows (store w)) = Some c ->
  exists c' : Counter,
    find (has_id i) (rows (store (times n (decrement_counter clock i) w))) = Some c' /\
    value c' = value c - Z.of_nat n /\ name c' = name c.
Proof.
  intros Hc. induction n as [|n IH].
  - exists c. cbn. split; [exact Hc | split; [lia | reflexivity]].
  - destruct IH as [c1 [H1 [Hv Hn]]]. rewrite times_succ.
    rewrite (decrement_counter_found clock i _ c1 H1).
    eexists. cbn [snd touched store rows]. split.
    + apply (find_overwrite_same i _ c1); [exact H1|].
      cbn. now apply find_has_id_key in H1.
    + cbn [value name]. split; [lia | exact Hn].
Qed.

Lemma fresh_key_absent (w : World) :
  store_wf w -> ~ In (next_id (store w)) (map id (rows (store w))).
Proof.
  intros [_ Hlt] Hin. apply in_map_iff in Hin. destruct Hin as [r [Hr Hin]].
  rewrite Forall_forall in Hlt. specialize (Hlt r Hin). lia.
Qed.

(** C2: a counter created with value [v] in a store that respects its
    primary key, then incremented [n] times and decremented [m] times
    through its id, is read back with value [v + n - m]; nothing bounds the
    result from below. *)
Theorem increments_then_decrements (d : CounterCreate) (n m : nat) (w : World) :
  store_wf w ->
  let c := fst (create_counter clock d w) in
  let w1 := snd (create_counter clock d w) in
  let w2 := times n (increment_counter clock (id c)) w1 in
  let w3 := times m (decrement_counter clock (id c)) w2 in
  value c = create_value d /\
  exists c' : Counter,
    get_counter (id c) w3 = (Some c', w3) /\
    value c' = create_value d + Z.of_nat n - Z.of_nat m /\
    id c' = id c /\ name c' = create_name d.
Proof.
  intros Hwf. unfold create_counter. rewrite session_insert_eq.
  cbn [fst snd id]. split; [reflexivity|].
  set (c := mkCounter _ _ _ _ _). set (w1 := mkWorld _ _).
  assert (H1 : find (has_id (next_id (store w))) (rows (store w1)) = Some c).
  { cbn [w1 store rows]. apply find_has_id_app_fresh; [|reflexivity].
    now apply fresh_key_absent. }
  destruct (times_increment_counter _ n w1 c H1) as [c2 [H2 [Hv2 Hn2]]].
  destruct (times_decrement_counter _ m _ c2 H2) as [c3 [H3 [Hv3 Hn3]]].
  exists c3. unfold get_counter. rewrite session_get_eq, H3.
  split; [reflexivity|]. split.
  - rewrite Hv3, Hv2. reflexivity.
  - split; [now apply find_has_id_key in H3|].
    rewrite Hn3, Hn2. reflexivity.
Qed.

End Counting.

(** ** Invariants of the table over sequences of calls *)

Section Invariants.

Variable clock : nat -> Z.

Lemma find_has_id_self (i : Z) (l : list Counter) (c : Counter) :
  find (has_id i) l = Some c -> find (has_id (id c)) l = Some c.
Proof. intros H. now rewrite (find_has_id_key _ _ _ H). Qed.

(** Every call has one of the three effects. *)
Lemma step_effect (call : Call) (w : World) : effect clock w (step clock call w).
Proof.
  destruct call as [|d|i|i|i|i d|i]; cbn [step].
  - unfold get_or_create_default_counter, bind, select_first_by_name.
    destruct (find (has_name "default") (rows (store w))).
    + apply effect_none.
    + apply effect_insert.
  - apply effect_insert.
  - apply effect_none.
  - destruct (find (has_id i) (rows (store w))) as [c|] eqn:Hf.
    + rewrite (increment_counter_found clock i w c Hf).
      apply (effect_touch clock w c); auto. now apply (find_has_id_self i).
    + rewrite (increment_counter_absent clock i w Hf). apply effect_none.
  - destruct (find (has_id i) (rows (store w))) as [c|] eqn:Hf.
    + rewrite (decrement_counter_found clock i w c Hf).
      apply (effect_touch clock w c); auto. now apply (find_has_id_self i).
    + rewrite (decrement_counter_absent clock i w Hf). apply effect_none.
  - destruct (find (has_id i) (rows (store w))) as [c|] eqn:Hf.
    + destruct d as [[v|]].
      * rewrite (update_counter_found clock i v w c Hf).
        apply (effect_touch clock w c); auto. now apply (find_has_id_self i).
      * rewrite (update_counter_unset clock i w c Hf). apply effect_none.
    + rewrite (update_counter_absent clock i d w Hf). apply effect_none.
  - unfold reset_counter.
    destruct (find (has_id i) (rows (store w))) as [c|] eqn:Hf.
    + rewrite (update_counter_found clock i 0 w c Hf).
      apply (effect_touch clock w c); auto. now apply (find_has_id_self i).
    + rewrite (update_counter_absent clock i _ w Hf). apply effect_none.
Qed.

Lemma run_cons (call : Call) (cs : list Call) (w : World) :
  run clock (call :: cs) w = run clock cs (step clock call w).
Proof. reflexivity. Qed.

Lemma run_app (cs1 cs2 : list Call) (w : World) :
  run clock (cs1 ++ cs2) w = run clock cs2 (run clock cs1 w).
Proof. unfold run. apply fold_left_app. Qed.

(** A property kept by each effect is kept by every sequence of calls. *)
Lemma run_invariant (P : World -> Prop) :
  (forall w w' : World, P w -> effect clock w w' -> P w') ->
  forall (cs : list Call) (w : World), P w -> P (run clock cs w).
Proof.
  intros Hstep cs. induction cs as [|call cs IH]; intros w Hw.
  - exact Hw.
  - rewrite run_cons. apply IH. apply (Hstep w); [exact Hw | apply step_effect].
Qed.

Lemma NoDup_snoc (l : list Z) (x : Z) :
  NoDup l -> ~ In x l -> NoDup (l ++ [x]).
Proof.
  intros Hl Hx. induction l as [|y l IH]; simpl.
  - constructor; [tauto | constructor].
  - inversion Hl as [|? ? Hy Hl']; subst. constructor.
    + rewrite in_app_iff. simpl in *. intros [H|[H|[]]]; [tauto | subst; tauto].
    + apply IH; [exact Hl' | simpl in Hx; tauto].
Qed.

(** The primary key stays a key. *)
Lemma store_wf_effect (w w' : World) :
  store_wf w -> effect clock w w' -> store_wf w'.
Proof.
  intros Hwf He. destruct He as [|n v|c c' Hf Hi Hn Hc Hu].
  - exact Hwf.
  - pose proof (fresh_key_absent w Hwf) as Hfresh.
    destruct Hwf as [Hnd Hlt].
    rewrite session_insert_eq. cbn [snd]. unfold store_wf. cbn [store rows next_id].
    split.
    + rewrite map_app. cbn [map id]. now apply NoDup_snoc.
    + apply Forall_app. split.
      * eapply Forall_impl; [|exact Hlt]. cbn. intros; lia.
      * constructor; [cbn; lia | constructor].
  - destruct Hwf as [Hnd Hlt]. unfold store_wf. cbn [touched store rows next_id].
    split.
    + now rewrite map_id_overwrite.
    + rewrite Forall_forall in *. intros r Hr.
      apply In_overwrite in Hr. destruct Hr as [->|Hr]; [|now apply Hlt].
      rewrite Hi. apply Hlt. apply find_some in Hf. tauto.
Qed.

Lemma store_wf_empty : store_wf empty_world.
Proof. split; cbn; constructor. Qed.

Lemma store_wf_run (cs : list Call) (w : World) :
  store_wf w -> store_wf (run clock cs w).
Proof. apply (run_invariant store_wf). apply store_wf_effect. Qed.

(** Under a clock that never goes back, the timestamps stay in order. *)
Lemma timestamps_ok_effect (w w' : World) :
  clock_monotone clock ->
  timestamps_ok clock w -> effect clock w w' -> timestamps_ok clock w'.
Proof.
  intros Hmono Hok He. unfold timestamps_ok in *.
  destruct He as [|n v|c c' Hf Hi Hn Hc Hu].
  - exact Hok.
  - rewrite session_insert_eq. cbn [snd store rows ticks].
    apply Forall_app. split.
    + eapply Forall_impl; [|exact Hok]. cbn. intros r [H1 H2]. split; [exact H1|].
      intros j Hj. apply H2. lia.
    + constructor; [|constructor]. cbn [created_at updated_at]. split.
      * apply Hmono. lia.
      * intros j Hj. apply Hmono. lia.
  - cbn [touched store rows ticks]. rewrite Forall_forall in *.
    intros r Hr. apply In_overwrite in Hr. destruct Hr as [->|Hr].
    + apply find_some in Hf. destruct Hf as [Hin _].
      destruct (Hok c Hin) as [H1 H2]. rewrite Hc, Hu. split.
      * specialize (H2 (ticks w)). lia.
      * intros j Hj. apply Hmono. lia.
    + destruct (Hok r Hr) as [H1 H2]. split; [exact H1|].
      intros j Hj. apply H2. lia.
Qed.

Lemma timestamps_ok_empty : timestamps_ok clock empty_world.
Proof. constructor. Qed.

Lemma timestamps_ok_run (cs : list Call) (w : World) :
  clock_monotone clock ->
  timestamps_ok clock w -> timestamps_ok clock (run clock cs w).
Proof.
  intros Hmono. apply (run_invariant (timestamps_ok clock)).
  intros w1 w2. now apply timestamps_ok_effect.
Qed.

(** Keys are only ever appended. *)
Lemma keys_effect (w w' : World) :
  effect clock w w' ->
  exists tail : list Z,
    map id (rows (store w')) = (map id (rows (store w)) ++ tail)%list.
Proof.
  intros He. destruct He as [|n v|c c' Hf Hi Hn Hc Hu].
  - exists []. now rewrite app_nil_r.
  - rewrite session_insert_eq. cbn [snd store rows]. rewrite map_app.
    eexists. reflexivity.
  - cbn [touched store rows]. rewrite map_id_overwrite.
    exists []. now rewrite app_nil_r.
Qed.

Lemma keys_run (cs : list Call) (w : World) :
  exists tail : list Z,
    map id (rows (store (run clock cs w))) =
    (map id (rows (store w)) ++ tail)%list.
Proof.
  revert w. induction cs as [|call cs IH]; intros w.
  - exists []. cbn. now rewrite app_nil_r.
  - rewrite run_cons. destruct (IH (step clock call w)) as [t2 H2].
    destruct (keys_effect w _ (step_effect call w)) as [t1 H1].
    exists (t1 ++ t2)%list. rewrite H2, H1. now rewrite app_assoc.
Qed.

Lemma NoDup_find_self (l : list Counter) (c : Counter) :
  NoDup (map id l) -> In c l -> find (has_id (id c)) l = Some c.
Proof.
  induction l as [|r l IH]; simpl; [tauto|].
  intros Hnd Hin. inversion Hnd as [|? ? Hr Hnd']; subst.
  destruct (has_id (id c) r) eqn:E.
  - destruct Hin as [->|Hin]; [reflexivity|].
    apply has_id_true in E. exfalso. apply Hr. rewrite E. now apply in_map.
  - destruct Hin as [->|Hin]; [|now apply IH].
    apply has_id_false in E. congruence.
Qed.

(** A row keeps its key and its creation time through any effect. *)
Lemma created_at_effect (w w' : World) (r : Counter) :
  store_wf w -> effect clock w w' -> In r (rows (store w)) ->
  exists r' : Counter,
    In r' (rows (store w')) /\ id r' = id r /\ created_at r' = created_at r.
Proof.
  intros [Hnd _] He Hin. destruct He as [|n v|c c' Hf Hi Hn Hc Hu].
  - exists r. auto.
  - exists r. rewrite session_insert_eq. cbn [snd store rows].
    rewrite in_app_iff. auto.
  - cbn [touched store rows]. destruct (Z.eq_dec (id r) (id c)) as [E|E].
    + pose proof (NoDup_find_self _ r Hnd Hin) as Hr.
      rewrite E, Hf in Hr. injection Hr as <-.
      exists c'. repeat split; auto.
      unfold overwrite. apply in_map_iff. exists c. split; [|exact Hin].
      assert (Ht : has_id (id c') c = true) by (apply has_id_true; congruence).
      now rewrite Ht.
    + exists r. repeat split; auto. apply In_overwrite_keep; congruence.
Qed.

Lemma created_at_run (cs : list Call) (w : World) (r : Counter) :
  store_wf w -> In r (rows (store w)) ->
  exists r' : Counter,
    In r' (rows (store (run clock cs w))) /\
    id r' = id r /\ created_at r' = created_at r.
Proof.
  revert w r. induction cs as [|call cs IH]; intros w r Hwf Hin.
  - exists r. auto.
  - rewrite run_cons.
    destruct (created_at_effect w _ r Hwf (step_effect call w) Hin)
      as [r1 [Hin1 [Hi1 Hc1]]].
    assert (Hwf1 : store_wf (step clock call w))
      by (apply (store_wf_effect w); [exact Hwf | apply step_effect]).
    destruct (IH _ r1 Hwf1 Hin1) as [r2 [Hin2 [Hi2 Hc2]]].
    exists r2. repeat split; congruence.
Qed.

(** C6, as amended: after any sequence of service calls on the empty store
    every row has [created_at <= updated_at], provided the readings of the
    clock never go back; and, whatever the clock does, a row present at
    some point is still there, under the same id and with the same
    [created_at], after any further sequence of calls. *)
Theorem timestamps_stay_ordered (cs1 cs2 : list Call) :
  let w1 := run clock cs1 empty_world in
  let w2 := run clock cs2 w1 in
  (clock_monotone clock ->
   Forall (fun c => created_at c <= updated_at c) (rows (store w2))) /\
  (forall r : Counter,
      In r (rows (store w1)) ->
      exists r' : Counter,
        In r' (rows (store w2)) /\ id r' = id r /\
        created_at r' = created_at r).
Proof.
  intros w1 w2. split.
  - intros Hmono. assert (Hok : timestamps_ok clock w2).
    { unfold w2, w1. do 2 (apply timestamps_ok_run; [exact Hmono|]).
      apply timestamps_ok_empty. }
    eapply Forall_impl; [|exact Hok]. cbn. tauto.
  - intros r Hin. apply created_at_run; [|exact Hin].
    unfold w1. apply store_wf_run. apply store_wf_empty.
Qed.

(** C7: no sequence of service calls removes a row: the keys of the table
    before are, in order, the first keys of the table after, so an id
    present before is present after and [get_counter] still returns a
    record under that id. *)
Theorem no_row_is_removed (cs : list Call) (w : World) :
  (exists tail : list Z,
      map id (rows (store (run clock cs w))) =
      (map id (rows (store w)) ++ tail)%list) /\
  (forall i : Z,
      present i w ->
      present i (run clock cs w) /\
      exists c' : Counter,
        get_counter i (run clock cs w) = (Some c', run clock cs w) /\
        id c' = i).
Proof.
  pose proof (keys_run cs w) as [tail Ht]. split; [now exists tail|].
  intros i Hi. assert (Hp : present i (run clock cs w)).
  { unfold present in *. rewrite Ht, in_app_iff. now left. }
  split; [exact Hp|].
  unfold get_counter. rewrite session_get_eq.
  destruct (find (has_id i) (rows (store (run clock cs w)))) as [c'|] eqn:Hf.
  - exists c'. split; [reflexivity | now apply find_has_id_key in Hf].
  - apply find_has_id_none in Hf. contradiction.
Qed.

End Invariants.

(** ** The claims on concrete stores *)

Lemma fine_clock_monotone : clock_monotone fine_clock.
Proof. unfold clock_monotone, fine_clock. intros i j H. lia. Qed.

Lemma coarse_clock_monotone : clock_monotone coarse_clock.
Proof.
  unfold clock_monotone, coarse_clock. intros i j H.
  apply Zorder.Zplus_le_compat_l. apply Nat2Z.inj_le.
  apply Nat.Div0.div_le_mono. exact H.
Qed.

(** An id that was never handed out, on a store holding one counter. *)
Lemma absent_id_gives_none_witness :
  let w := run fine_clock [CallCreate (mkCounterCreate "a" 5)] empty_world in
  ~ present 99999 w /\
  get_counter 99999 w = (None, w) /\
  increment_counter fine_clock 99999 w = (None, w) /\
  decrement_counter fine_clock 99999 w = (None, w) /\
  update_counter fine_clock 99999 (mkCounterUpdate (Some 10)) w = (None, w) /\
  reset_counter fine_clock 99999 w = (None, w).
Proof.
  intros w.
  assert (H : ~ present 99999 w).
  { unfold present. cbn. intros [H|[]]. discriminate H. }
  split; [exact H|].
  exact (absent_id_gives_none fine_clock 99999 (mkCounterUpdate (Some 10)) w H).
Defined.

(** One increment and five decrements from 0 give -4. *)
Lemma increments_then_decrements_witness :
  store_wf empty_world /\
  exists c' : Counter,
    fst (get_counter 1
           (times 5 (decrement_counter fine_clock 1)
              (times 1 (increment_counter fine_clock 1)
                 (snd (create_counter fine_clock (mkCounterCreate "a" 0)
                         empty_world))))) = Some c' /\
    value c' = -4.
Proof.
  split; [exact store_wf_empty|].
  destruct (increments_then_decrements fine_clock (mkCounterCreate "a" 0) 1 5
              empty_world store_wf_empty) as [_ [c' [H1 [H2 _]]]].
  exists c'. split; [exact (f_equal fst H1) | exact H2].
Defined.



(** Reset of a counter that holds -3. *)
Lemma reset_counter_is_update_to_zero_witness :
  let w := snd (create_counter fine_clock (mkCounterCreate "reset_test" (-3))
                  empty_world) in
  fst (get_counter 1 w) = Some (mkCounter 1 "reset_test" (-3) 1000 1001) /\
  exists c' : Counter,
    fst (reset_counter fine_clock 1 w) = Some c' /\ value c' = 0.
Proof.
  intros w. split; [reflexivity|].
  destruct (reset_counter_is_update_to_zero fine_clock 1 w) as [_ H].
  destruct (H _ eq_refl) as [c' [H1 [H2 _]]].
  exists c'. split; [exact H1 | exact H2].
Defined.

(** The default counter on the empty store. *)
Lemma default_counter_is_created_once_witness :
  ~ In "default" (map name (rows (store empty_world))) /\
  let w1 := snd (get_or_create_default_counter fine_clock empty_world) in
  id (fst (get_or_create_default_counter fine_clock w1)) =
  id (fst (get_or_create_default_counter fine_clock empty_world)) /\
  snd (get_or_create_default_counter fine_clock w1) = w1.
Proof.
  assert (H : ~ In "default" (map name (rows (store empty_world)))).
  { cbn. intros []. }
  split; [exact H|].
  destruct (default_counter_is_created_once fine_clock empty_world H)
    as [_ [_ [_ [H1 [_ [H2 _]]]]]].
  split; [exact H1 | exact H2].
Defined.

(** C6, the claim as stated fails: the wall clock is set back between the
    creation of a counter and its increment, and the increment stores an
    [updated_at] earlier than [created_at]. *)
Lemma updated_at_before_created_at :
  let w := run set_back_clock
             [CallCreate (mkCounterCreate "a" 5); CallIncrement 1]
             empty_world in
  let c := mkCounter 1 "a" 6 1000 500 in
  rows (store w) = [c] /\
  get_counter 1 w = (Some c, w) /\
  ~ (updated_at c >= created_at c).
Proof.
  cbn. repeat split. lia.
Qed.

(** Two calls, then two more, on the empty store. *)
Lemma timestamps_stay_ordered_witness :
  clock_monotone fine_clock /\
  let w1 := run fine_clock
              [CallCreate (mkCounterCreate "a" 5); CallIncrement 1]
              empty_world in
  let w2 := run fine_clock [CallReset 1; CallGetOrCreateDefault] w1 in
  Forall (fun c => created_at c <= updated_at c) (rows (store w2)) /\
  In (mkCounter 1 "a" 6 1000 1002) (rows (store w1)) /\
  exists r' : Counter,
    In r' (rows (store w2)) /\ id r' = 1 /\ created_at r' = 1000.
Proof.
  split; [exact fine_clock_monotone|].
  intros w1 w2.
  assert (Hin : In (mkCounter 1 "a" 6 1000 1002) (rows (store w1)))
    by (cbn; now left).
  destruct (timestamps_stay_ordered fine_clock
              [CallCreate (mkCounterCreate "a" 5); CallIncrement 1]
              [CallReset 1; CallGetOrCreateDefault]) as [H1 H2].
  split; [exact (H1 fine_clock_monotone)|]. split; [exact Hin|].
  exact (H2 _ Hin).
Defined.

(** A counter survives the calls made on it and on others. *)
Lemma no_row_is_removed_witness :
  let w := run fine_clock [CallCreate (mkCounterCreate "a" 5)] empty_world in
  let w' := run fine_clock
              [CallDecrement 1; CallGetOrCreateDefault; CallReset 1] w in
  present 1 w /\ present 1 w'.
Proof.
  intros w w'.
  assert (H : present 1 w) by (unfold present; cbn; now left).
  split; [exact H|].
  exact (proj1 (proj2 (no_row_is_removed fine_clock
                         [CallDecrement 1; CallGetOrCreateDefault; CallReset 1]
                         w) 1 H)).
Defined.

(** Reset of a counter created at 0, on the coarse clock: the reading taken
    by the call is stored although it equals the previous one. *)
Lemma reset_counter_at_zero_refreshes_witness :
  let w := snd (create_counter coarse_clock (mkCounterCreate "zero" 0)
                  empty_world) in
  let c := mkCounter 1 "zero" 0 1000 1000 in
  fst (get_counter 1 w) = Some c /\ value c = 0 /\
  exists c' : Counter,
    fst (reset_counter coarse_clock 1 w) = Some c' /\
    updated_at c' = coarse_clock 2 /\
    ticks (snd (reset_counter coarse_clock 1 w)) = 3%nat.
Proof.
  intros w c.
  assert (H : fst (get_counter 1 w) = Some c) by reflexivity.
  split; [exact H|]. split; [reflexivity|].
  destruct (reset_counter_at_zero_refreshes coarse_clock 1 w c H eq_refl)
    as [c' [H1 [_ [H2 [H3 _]]]]].
  exists c'. split; [exact (f_equal fst H1) | split; [exact H2 | exact H3]].
Defined.

(** * Further properties of the service *)

Section ServiceFacts.

Variable clock : nat -> Z.

Lemma find_has_name_absent (n : string) (l : list Counter) :
  find (has_name n) l = None -> ~ In n (map name l).
Proof.
  induction l as [|r l IH]; simpl; [tauto|].
  unfold has_name at 1. destruct (String.eqb (name r) n) eqn:E; [discriminate|].
  apply String.eqb_neq in E. intros H [Hr|Hin]; [congruence | now apply IH].
Qed.

Lemma find_app_found (f : Counter -> bool) (l l' : list Counter) (r : Counter) :
  find f l = Some r -> find f (l ++ l') = Some r.
Proof.
  induction l as [|x l IH]; simpl; [discriminate|].
  destruct (f x); auto.
Qed.

(** X1: [create_counter] in a store that respects its primary key returns a
    record carrying the payload's name and value under an id no row had;
    the row is appended, the rows already there are left as they were, and
    [get_counter] on the new id reads the very record back. *)
Theorem create_counter_then_get (d : CounterCreate) (w : World) :
  store_wf w ->
  let c := fst (create_counter clock d w) in
  let w1 := snd (create_counter clock d w) in
  name c = create_name d /\ value c = create_value d /\
  ~ present (id c) w /\
  rows (store w1) = (rows (store w) ++ [c])%list /\
  get_counter (id c) w1 = (Some c, w1) /\
  store_wf w1.
Proof.
  intros Hwf. pose proof (fresh_key_absent w Hwf) as Hfresh.
  assert (Hwf1 : store_wf (snd (create_counter clock d w))).
  { apply (store_wf_effect clock w); [exact Hwf|]. unfold create_counter.
    apply effect_insert. }
  revert Hwf1. unfold create_counter. rewrite session_insert_eq.
  cbn [fst snd id name value store rows]. intros Hwf1.
  repeat split; try exact Hfresh; try exact (proj1 Hwf1); try exact (proj2 Hwf1).
  unfold get_counter. rewrite session_get_eq. cbn [store rows].
  now rewrite find_has_id_app_fresh.
Qed.

(** X2: [create_counter] checks no name: whatever rows the store holds,
    the new row is added, the rows already there stay, and the number of
    rows carrying the payload's name goes up by one.  So creating a
    counter named "default" leaves one more row of that name than before,
    however many there were; [get_or_create_default_counter] then inserts
    nothing and returns a row of that name. *)
Theorem create_counter_checks_no_name (d : CounterCreate) (w : World) :
  let c := fst (create_counter clock d w) in
  let w1 := snd (create_counter clock d w) in
  name c = create_name d /\
  In c (rows (store w1)) /\
  (forall r : Counter, In r (rows (store w)) -> In r (rows (store w1))) /\
  List.length (filter (has_name (create_name d)) (rows (store w1))) =
  S (List.length (filter (has_name (create_name d)) (rows (store w)))) /\
  (create_name d = "default" ->
   default_count w1 = S (default_count w) /\
   name (fst (get_or_create_default_counter clock w1)) = "default" /\
   In (fst (get_or_create_default_counter clock w1)) (rows (store w1)) /\
   snd (get_or_create_default_counter clock w1) = w1).
Proof.
  unfold create_counter. rewrite session_insert_eq. cbn [fst snd store rows].
  set (c := mkCounter _ _ _ _ _).
  set (w1 := mkWorld _ _).
  assert (Hf : List.length
                 (filter (has_name (create_name d)) (rows (store w) ++ [c])) =
               S (List.length
                    (filter (has_name (create_name d)) (rows (store w))))).
  { rewrite filter_app, length_app. cbn [filter]. unfold has_name at 2.
    cbn [name c]. rewrite String.eqb_refl. cbn [List.length]. lia. }
  assert (Hc : In c (rows (store w) ++ [c]))
    by (rewrite in_app_iff; right; now left).
  split; [reflexivity|]. split; [exact Hc|]. split.
  { intros r Hr. rewrite in_app_iff. now left. }
  split; [exact Hf|].
  intros Hd. split.
  { unfold default_count. cbn [w1 store rows]. rewrite <- Hd. exact Hf. }
  unfold get_or_create_default_counter, bind, select_first_by_name.
  destruct (find (has_name "default") (rows (store w1))) as [r|] eqn:Hfind.
  - cbn [fst snd ret]. apply find_some in Hfind. destruct Hfind as [Hin Hn].
    unfold has_name in Hn. apply String.eqb_eq in Hn. auto.
  - apply find_has_name_absent in Hfind. exfalso. apply Hfind.
    cbn [w1 store rows]. apply in_map_iff. exists c. split; [exact Hd | exact Hc].
Qed.

(** X3: on any store [get_or_create_default_counter] returns a record named
    "default" that is a row of the store it leaves; called again at once it
    returns the same record and changes nothing; and when a row named
    "default" is already there the first call changes nothing either. *)
Theorem get_or_create_default_counter_idempotent (w : World) :
  let c := fst (get_or_create_default_counter clock w) in
  let w1 := snd (get_or_create_default_counter clock w) in
  name c = "default" /\
  In c (rows (store w1)) /\
  get_or_create_default_counter clock w1 = (c, w1) /\
  (In "default" (map name (rows (store w))) -> w1 = w).
Proof.
  assert (E : get_or_create_default_counter clock w =
              match find (has_name "default") (rows (store w)) with
              | Some r => (r, w)
              | None => session_insert clock "default" 0 w
              end).
  { unfold get_or_create_default_counter, bind, select_first_by_name.
    now destruct (find (has_name "default") (rows (store w))). }
  rewrite E. clear E.
  destruct (find (has_name "default") (rows (store w))) as [r|] eqn:Hfind.
  - cbn [fst snd]. pose proof (find_some _ _ Hfind) as [Hin Hn].
    unfold has_name in Hn. apply String.eqb_eq in Hn.
    repeat split; auto.
    unfold get_or_create_default_counter, bind, select_first_by_name.
    now rewrite Hfind.
  - apply find_has_name_absent in Hfind.
    rewrite session_insert_eq. cbn [fst snd name store rows].
    repeat split.
    + rewrite in_app_iff. right. now left.
    + unfold get_or_create_default_counter, bind, select_first_by_name.
      cbn [store rows].
      rewrite (find_has_name_app_new "default" _ _ Hfind); reflexivity.
    + intros Hin. contradiction.
Qed.

(** X4: what a mutating call returns is what the store then holds: when
    [increment_counter], [decrement_counter], [update_counter] (any
    payload) or [reset_counter] returns a record, [get_counter] on the same
    id right after returns that record. *)
Theorem returned_record_is_stored (i : Z) (d : CounterUpdate) (w : World) :
  let stored (r : option Counter * World) :=
    forall c : Counter,
      fst r = Some c -> get_counter i (snd r) = (Some c, snd r) in
  stored (increment_counter clock i w) /\
  stored (decrement_counter clock i w) /\
  stored (update_counter clock i d w) /\
  stored (reset_counter clock i w).
Proof.
  intros stored. unfold stored, reset_counter, get_counter.
  assert (Ht : forall c0 c' : Counter,
             find (has_id i) (rows (store w)) = Some c0 -> id c' = id c0 ->
             session_get i (touched c' w) = (Some c', touched c' w)).
  { intros c0 c' Hf Hi. rewrite session_get_eq. cbn [touched store rows].
    rewrite (find_overwrite_same i _ c0 c'); [reflexivity | exact Hf |].
    rewrite Hi. now apply find_has_id_key in Hf. }
  destruct (find (has_id i) (rows (store w))) as [c0|] eqn:Hf.
  - rewrite (increment_counter_found clock i w c0 Hf).
    rewrite (decrement_counter_found clock i w c0 Hf).
    rewrite (update_counter_found clock i 0 w c0 Hf).
    cbn [fst snd].
    repeat apply conj; try (intros c Hc; injection Hc as <-;
                            now apply (Ht c0)).
    destruct d as [[v|]].
    + rewrite (update_counter_found clock i v w c0 Hf). cbn [fst snd].
      intros c Hc; injection Hc as <-. now apply (Ht c0).
    + rewrite (update_counter_unset clock i w c0 Hf). cbn [fst snd].
      intros c Hc; injection Hc as <-. rewrite session_get_eq. now rewrite Hf.
  - rewrite (increment_counter_absent clock i w Hf).
    rewrite (decrement_counter_absent clock i w Hf).
    rewrite !(update_counter_absent clock i _ w Hf).
    cbn [fst]. repeat split; intros c Hc; discriminate Hc.
Qed.

End ServiceFacts.

(** ** One counter through any sequence of calls *)

Section Histories.

Variable clock : nat -> Z.

Lemma touched_lookup (i j : Z) (w : World) (cj c' : Counter) :
  find (has_id j) (rows (store w)) = Some cj -> id c' = id cj ->
  find (has_id i) (rows (store (touched c' w))) =
  if j =? i then Some c' else find (has_id i) (rows (store w)).
Proof.
  intros Hf Hi. pose proof (find_has_id_key _ _ _ Hf) as Hk.
  cbn [touched store rows]. destruct (j =? i) eqn:E.
  - apply Z.eqb_eq in E. subst i.
    apply (find_overwrite_same j _ cj); [exact Hf | congruence].
  - apply Z.eqb_neq in E. apply find_overwrite_other. congruence.
Qed.

Lemma inserted_lookup (i : Z) (n : string) (v : Z) (w : World) (c : Counter) :
  find (has_id i) (rows (store w)) = Some c ->
  find (has_id i) (rows (store (snd (session_insert clock n v w)))) = Some c.
Proof.
  intros Hf. rewrite session_insert_eq. cbn [snd store rows].
  now apply find_app_found.
Qed.

Lemma same_counter_refl (c : Counter) : same_counter c c.
Proof. unfold same_counter. auto. Qed.

Lemma same_counter_trans (a b c : Counter) :
  same_counter a b -> same_counter b c -> same_counter a c.
Proof. unfold same_counter. intros [? [? ?]] [? [? ?]]. repeat split; congruence. Qed.

Lemma ledger_step_sound (i : Z) (call : Call) (w : World) (c : Counter) :
  find (has_id i) (rows (store w)) = Some c ->
  exists c' : Counter,
    find (has_id i) (rows (store (step clock call w))) = Some c' /\
    value c' = ledger_step i call (value c) /\ same_counter c c'.
Proof.
  intros Hc.
  assert (Hsame : exists c' : Counter,
             find (has_id i) (rows (store w)) = Some c' /\
             value c' = value c /\ same_counter c c').
  { exists c. split; [exact Hc | split; [reflexivity | apply same_counter_refl]]. }
  assert (Hmut : forall (j : Z) (cj : Counter) (x : Z),
             find (has_id j) (rows (store w)) = Some cj ->
             let c' := mkCounter (id cj) (name cj) x (created_at cj)
                                 (clock (ticks w)) in
             exists c'' : Counter,
               find (has_id i) (rows (store (touched c' w))) = Some c'' /\
               value c'' = (if j =? i then x else value c) /\
               same_counter c c'').
  { intros j cj x Hj c'. rewrite (touched_lookup i j w cj c' Hj eq_refl).
    destruct (j =? i) eqn:E.
    - apply Z.eqb_eq in E. subst j. rewrite Hc in Hj. injection Hj as <-.
      exists c'. split; [reflexivity|]. split; [reflexivity|].
      unfold same_counter. cbn. auto.
    - exact Hsame. }
  destruct call as [|d|j|j|j|j d|j]; cbn [step ledger_step].
  - unfold get_or_create_default_counter, bind, select_first_by_name.
    destruct (find (has_name "default") (rows (store w))).
    + exact Hsame.
    + exists c. split; [now apply inserted_lookup|].
      split; [reflexivity | apply same_counter_refl].
  - exists c. unfold create_counter. split; [now apply inserted_lookup|].
    split; [reflexivity | apply same_counter_refl].
  - exact Hsame.
  - destruct (find (has_id j) (rows (store w))) as [cj|] eqn:Hj.
    + rewrite (increment_counter_found clock j w cj Hj). cbn [snd].
      destruct (Hmut j cj (value cj + 1) Hj) as [c'' [H1 [H2 H3]]].
      exists c''. split; [exact H1|]. split; [|exact H3].
      rewrite H2. destruct (j =? i) eqn:E; [|reflexivity].
      apply Z.eqb_eq in E. subst j. congruence.
    + rewrite (increment_counter_absent clock j w Hj). cbn [snd].
      destruct (j =? i) eqn:E; [|exact Hsame].
      apply Z.eqb_eq in E. subst j. congruence.
  - destruct (find (has_id j) (rows (store w))) as [cj|] eqn:Hj.
    + rewrite (decrement_counter_found clock j w cj Hj). cbn [snd].
      destruct (Hmut j cj (value cj - 1) Hj) as [c'' [H1 [H2 H3]]].
      exists c''. split; [exact H1|]. split; [|exact H3].
      rewrite H2. destruct (j =? i) eqn:E; [|reflexivity].
      apply Z.eqb_eq in E. subst j. congruence.
    + rewrite (decrement_counter_absent clock j w Hj). cbn [snd].
      destruct (j =? i) eqn:E; [|exact Hsame].
      apply Z.eqb_eq in E. subst j. congruence.
  - destruct (find (has_id j) (rows (store w))) as [cj|] eqn:Hj.
    + destruct d as [[x|]]; cbn [update_value].
      * rewrite (update_counter_found clock j x w cj Hj). cbn [snd].
        destruct (Hmut j cj x Hj) as [c'' [H1 [H2 H3]]].
        exists c''. split; [exact H1|]. split; [exact H2 | exact H3].
      * rewrite (update_counter_unset clock j w cj Hj). cbn [snd].
        destruct (j =? i); exact Hsame.
    + rewrite (update_counter_absent clock j d w Hj). cbn [snd].
      destruct (j =? i) eqn:E; [|exact Hsame].
      apply Z.eqb_eq in E. subst j. congruence.
  - unfold reset_counter.
    destruct (find (has_id j) (rows (store w))) as [cj|] eqn:Hj.
    + rewrite (update_counter_found clock j 0 w cj Hj). cbn [snd].
      destruct (Hmut j cj 0 Hj) as [c'' [H1 [H2 H3]]].
      exists c''. split; [exact H1|]. split; [exact H2 | exact H3].
    + rewrite (update_counter_absent clock j _ w Hj). cbn [snd].
      destruct (j =? i) eqn:E; [|exact Hsame].
      apply Z.eqb_eq in E. subst j. congruence.
Qed.

(** X5: the value of a counter after any sequence of service calls is the
    one its ledger gives: each increment and decrement aimed at its id
    counts for +1 and -1, an update or reset aimed at it sets the value,
    and every other call (on other ids, creations, reads, unset updates)
    leaves it alone.  The counter also keeps its id, name and creation
    time throughout. *)
Theorem value_follows_ledger (i : Z) (cs : list Call) (w : World) (c : Counter) :
  fst (get_counter i w) = Some c ->
  exists c' : Counter,
    get_counter i (run clock cs w) = (Some c', run clock cs w) /\
    value c' = ledger i cs (value c) /\
    id c' = i /\ name c' = name c /\ created_at c' = created_at c.
Proof.
  unfold get_counter. rewrite !session_get_eq. cbn [fst].
  revert w c. induction cs as [|call cs IH]; intros w c Hc.
  - exists c. cbn. rewrite Hc. repeat split. now apply find_has_id_key in Hc.
  - destruct (ledger_step_sound i call w c Hc) as [c1 [H1 [Hv1 [Hi1 [Hn1 Ht1]]]]].
    destruct (IH _ c1 H1) as [c2 [H2 [Hv2 [Hi2 [Hn2 Ht2]]]]].
    exists c2. rewrite run_cons. split; [exact H2|].
    cbn [ledger fold_left]. fold (ledger i cs (ledger_step i call (value c))).
    rewrite <- Hv1. repeat split; congruence.
Qed.

Lemma updated_at_step (i : Z) (call : Call) (w : World) (c : Counter) :
  clock_monotone clock -> timestamps_ok clock w ->
  find (has_id i) (rows (store w)) = Some c ->
  exists c' : Counter,
    find (has_id i) (rows (store (step clock call w))) = Some c' /\
    updated_at c <= updated_at c'.
Proof.
  intros Hmono Hok Hc.
  destruct (step_effect clock call w) as [|n v|c0 c0' Hf Hi Hn Hcr Hu].
  - exists c. split; [exact Hc | lia].
  - exists c. split; [now apply inserted_lookup | lia].
  - rewrite (touched_lookup i (id c0) w c0 c0' Hf Hi).
    destruct (id c0 =? i) eqn:E.
    + apply Z.eqb_eq in E. rewrite E in Hf. rewrite Hc in Hf. injection Hf as <-.
      exists c0'. split; [reflexivity|]. rewrite Hu.
      unfold timestamps_ok in Hok. rewrite Forall_forall in Hok.
      apply find_some in Hc. destruct (Hok c (proj1 Hc)) as [_ H]. apply H. lia.
    + exists c. split; [exact Hc | lia].
Qed.

(** X6: on a clock that never goes back, [updated_at] never goes back
    either: for a counter present after some calls on the empty store, any
    further sequence of calls leaves it with an [updated_at] at least as
    late. *)
Theorem updated_at_never_goes_back (i : Z) (cs0 cs : list Call) (c : Counter) :
  clock_monotone clock ->
  let w := run clock cs0 empty_world in
  fst (get_counter i w) = Some c ->
  exists c' : Counter,
    fst (get_counter i (run clock cs w)) = Some c' /\
    updated_at c <= updated_at c'.
Proof.
  intros Hmono w.
  assert (Hok : timestamps_ok clock w).
  { apply timestamps_ok_run; [exact Hmono | apply timestamps_ok_empty]. }
  clearbody w. unfold get_counter. cbn [fst session_get].
  revert w c Hok. induction cs as [|call cs IH]; intros w c Hok Hc.
  - exists c. split; [exact Hc | lia].
  - destruct (updated_at_step i call w c Hmono Hok Hc) as [c1 [H1 Hle1]].
    assert (Hok1 : timestamps_ok clock (step clock call w)).
    { apply (timestamps_ok_effect clock w); auto. apply step_effect. }
    destruct (IH _ c1 Hok1 H1) as [c2 [H2 Hle2]].
    exists c2. rewrite run_cons. split; [exact H2 | lia].
Qed.

End Histories.

(** ** The default counter as a singleton *)

Section DefaultSingleton.

Variable clock : nat -> Z.

Lemma filter_has_name_overwrite (n : string) (c' : Counter) (l : list Counter) :
  (forall r : Counter, In r l -> id r = id c' -> name r = name c') ->
  List.length (filter (has_name n) (overwrite c' l)) =
  List.length (filter (has_name n) l).
Proof.
  unfold overwrite. induction l as [|r l IH]; intros H; simpl; [reflexivity|].
  assert (IH' : List.length
                  (filter (has_name n)
                     (map (fun r0 => if has_id (id c') r0 then c' else r0) l)) =
                List.length (filter (has_name n) l)).
  { apply IH. intros r0 Hr0. apply H. now right. }
  assert (E : has_name n (if has_id (id c') r then c' else r) = has_name n r).
  { destruct (has_id (id c') r) eqn:Hid; [|reflexivity].
    apply has_id_true in Hid. unfold has_name.
    now rewrite (H r (or_introl eq_refl) Hid). }
  rewrite E. destruct (has_name n r); simpl; now rewrite IH'.
Qed.

Lemma default_count_touched (w : World) (c c' : Counter) :
  store_wf w ->
  find (has_id (id c)) (rows (store w)) = Some c ->
  id c' = id c -> name c' = name c ->
  default_count (touched c' w) = default_count w.
Proof.
  intros [Hnd _] Hf Hi Hn. unfold default_count. cbn [touched store rows].
  apply filter_has_name_overwrite. intros r Hr Hid.
  pose proof (NoDup_find_self _ r Hnd Hr) as Hfr.
  rewrite Hid, Hi, Hf in Hfr. injection Hfr as <-. now rewrite Hn.
Qed.

Lemma default_count_found (i x : Z) (w : World) (c : Counter) :
  store_wf w ->
  find (has_id i) (rows (store w)) = Some c ->
  default_count
    (touched (mkCounter (id c) (name c) x (created_at c) (clock (ticks w))) w) =
  default_count w.
Proof.
  intros Hwf Hf. apply (default_count_touched w c); auto.
  now apply (find_has_id_self i).
Qed.

Lemma default_count_step (call : Call) (w : World) :
  store_wf w -> creates_default call = false ->
  (default_count w <= 1)%nat -> (default_count (step clock call w) <= 1)%nat.
Proof.
  intros Hwf Hcall Hle.
  destruct call as [|d|i|i|i|i d|i]; cbn [step].
  - unfold get_or_create_default_counter, bind, select_first_by_name.
    destruct (find (has_name "default") (rows (store w))) eqn:Hfind.
    + exact Hle.
    + apply find_has_name_absent in Hfind.
      rewrite session_insert_eq. unfold default_count. cbn [snd store rows].
      rewrite filter_app, (filter_has_name_none _ _ Hfind). cbn. lia.
  - unfold create_counter. rewrite session_insert_eq.
    unfold default_count in *. cbn [snd store rows].
    rewrite filter_app, length_app. cbn [filter]. unfold has_name at 2.
    cbn [name]. cbn [creates_default] in Hcall. rewrite Hcall. cbn. lia.
  - exact Hle.
  - destruct (find (has_id i) (rows (store w))) as [c|] eqn:Hf.
    + rewrite (increment_counter_found clock i w c Hf). cbn [snd].
      now rewrite (default_count_found i _ w c Hwf Hf).
    + now rewrite (increment_counter_absent clock i w Hf).
  - destruct (find (has_id i) (rows (store w))) as [c|] eqn:Hf.
    + rewrite (decrement_counter_found clock i w c Hf). cbn [snd].
      now rewrite (default_count_found i _ w c Hwf Hf).
    + now rewrite (decrement_counter_absent clock i w Hf).
  - destruct (find (has_id i) (rows (store w))) as [c|] eqn:Hf.
    + destruct d as [[x|]].
      * rewrite (update_counter_found clock i x w c Hf). cbn [snd].
        now rewrite (default_count_found i _ w c Hwf Hf).
      * now rewrite (update_counter_unset clock i w c Hf).
    + now rewrite (update_counter_absent clock i d w Hf).
  - unfold reset_counter.
    destruct (find (has_id i) (rows (store w))) as [c|] eqn:Hf.
    + rewrite (update_counter_found clock i 0 w c Hf). cbn [snd].
      now rewrite (default_count_found i _ w c Hwf Hf).
    + now rewrite (update_counter_absent clock i _ w Hf).
Qed.

(** X7: the service keeps the default counter single as long as nobody
    calls [create_counter] with the name "default": from a store that
    respects its primary key and holds at most one row named "default", any
    sequence of other calls leaves at most one such row. *)
Theorem default_counter_stays_single (cs : list Call) (w : World) :
  store_wf w ->
  (default_count w <= 1)%nat ->
  existsb creates_default cs = false ->
  (default_count (run clock cs w) <= 1)%nat.
Proof.
  revert w. induction cs as [|call cs IH]; intros w Hwf Hle Hcs.
  - exact Hle.
  - cbn [existsb] in Hcs. apply orb_false_iff in Hcs. destruct Hcs as [Hc Hcs].
    rewrite run_cons. apply IH; [| |exact Hcs].
    + apply (store_wf_effect clock w); [exact Hwf | apply step_effect].
    + now apply default_count_step.
Qed.

End DefaultSingleton.

(** * The pages *)

Section PageFacts.

Variable clock : nat -> Z.
Variable strftime : Z -> string.

Lemma get_or_create_default_counter_eq (w : World) :
  get_or_create_default_counter clock w =
  match find (has_name "default") (rows (store w)) with
  | Some r => (r, w)
  | None => session_insert clock "default" 0 w
  end.
Proof.
  unfold get_or_create_default_counter, bind, select_first_by_name.
  now destruct (find (has_name "default") (rows (store w))).
Qed.

(** In a store that respects its primary key the default counter is found
    again under its id. *)
Lemma default_counter_lookup (w : World) :
  store_wf w ->
  let c := fst (get_or_create_default_counter clock w) in
  let w1 := snd (get_or_create_default_counter clock w) in
  name c = "default" /\ find (has_id (id c)) (rows (store w1)) = Some c.
Proof.
  intros Hwf. rewrite get_or_create_default_counter_eq.
  destruct (find (has_name "default") (rows (store w))) as [r|] eqn:Hfind.
  - cbn [fst snd]. apply find_some in Hfind. destruct Hfind as [Hin Hn].
    unfold has_name in Hn. apply String.eqb_eq in Hn. split; [exact Hn|].
    apply NoDup_find_self; [exact (proj1 Hwf) | exact Hin].
  - rewrite session_insert_eq. cbn [fst snd name id store rows].
    split; [reflexivity|].
    apply find_has_id_app_fresh; [now apply fresh_key_absent | reflexivity].
Qed.

Lemma counter_display_found (i : Z) (w : World) (c : Counter) :
  find (has_id i) (rows (store w)) = Some c ->
  counter_display strftime (Some i) w = (counter_card strftime c, w).
Proof.
  intros H. unfold counter_display, bind, get_counter. rewrite session_get_eq.
  now rewrite H.
Qed.

Lemma handler_found (h : Handler) (i : Z) (w : World) (c : Counter) :
  find (has_id i) (rows (store w)) = Some c ->
  let c' := mkCounter (id c) (name c) (click_value h (value c)) (created_at c)
                      (clock (ticks w)) in
  handler clock h (Some i) w = ((true, [success_notice h]), touched c' w).
Proof.
  intros Hf c'. destruct h; cbn [handler click_value success_notice].
  - unfold handle_increment, bind.
    now rewrite (increment_counter_found clock i w c Hf).
  - unfold handle_decrement, bind.
    now rewrite (decrement_counter_found clock i w c Hf).
  - unfold handle_reset, bind, reset_counter.
    now rewrite (update_counter_found clock i 0 w c Hf).
Qed.

Lemma handler_absent (h : Handler) (i : Z) (w : World) :
  find (has_id i) (rows (store w)) = None ->
  handler clock h (Some i) w = ((false, [failure_notice h]), w).
Proof.
  intros Hf. destruct h; cbn [handler failure_notice].
  - unfold handle_increment, bind.
    now rewrite (increment_counter_absent clock i w Hf).
  - unfold handle_decrement, bind.
    now rewrite (decrement_counter_absent clock i w Hf).
  - unfold handle_reset, bind, reset_counter.
    now rewrite (update_counter_absent clock i _ w Hf).
Qed.

Lemma click_found (h : Handler) (p : Page) (i : Z) (w : World) (c : Counter) :
  tab_counter_id p = Some i ->
  find (has_id i) (rows (store w)) = Some c ->
  let c' := mkCounter (id c) (name c) (click_value h (value c)) (created_at c)
                      (clock (ticks w)) in
  click clock strftime h p w =
  (mkPage (Some i) (header p) (counter_card strftime c') (footer p)
          (notifications p ++ [success_notice h]), touched c' w) /\
  find (has_id i) (rows (store (touched c' w))) = Some c'.
Proof.
  intros Ht Hf c'.
  assert (Hc' : find (has_id i) (rows (store (touched c' w))) = Some c').
  { rewrite (touched_lookup i i w c c' Hf eq_refl). now rewrite Z.eqb_refl. }
  split; [|exact Hc'].
  unfold click, bind. rewrite Ht, (handler_found h i w c Hf). fold c'.
  cbn [fst snd]. now rewrite (counter_display_found i _ c' Hc').
Qed.

Lemma clicks_cons (h : Handler) (hs : list Handler) (p : Page) (w : World) :
  clicks clock strftime (h :: hs) p w =
  clicks clock strftime hs (fst (click clock strftime h p w))
         (snd (click clock strftime h p w)).
Proof.
  unfold clicks. cbn [fold_left fst snd].
  now destruct (click clock strftime h p w).
Qed.

(** Clicks on a page whose tab holds the id of a counter the store has. *)
Lemma clicks_found (hs : list Handler) (p : Page) (i : Z) (w : World)
      (c : Counter) :
  tab_counter_id p = Some i ->
  find (has_id i) (rows (store w)) = Some c ->
  exists c' : Counter,
    find (has_id i)
         (rows (store (snd (clicks clock strftime hs p w)))) = Some c' /\
    value c' = fold_left (fun v h => click_value h v) hs (value c) /\
    name c' = name c /\
    tab_counter_id (fst (clicks clock strftime hs p w)) = Some i /\
    display (fst (clicks clock strftime hs p w)) =
      match hs with
      | [] => display p
      | _ :: _ => counter_card strftime c'
      end /\
    notifications (fst (clicks clock strftime hs p w)) =
      (notifications p ++ map success_notice hs)%list.
Proof.
  revert p w c. induction hs as [|h hs IH]; intros p w c Ht Hf.
  - exists c. cbn. rewrite app_nil_r. repeat split; auto.
  - destruct (click_found h p i w c Ht Hf) as [Hclick Hc1].
    rewrite clicks_cons, Hclick. cbn [fst snd].
    set (c1 := mkCounter _ _ _ _ _) in *.
    set (p1 := mkPage _ _ _ _ _).
    destruct (IH p1 _ c1 eq_refl Hc1) as [c' [H1 [H2 [H3 [H4 [H5 H6]]]]]].
    exists c'. split; [exact H1|]. split; [exact H2|]. split; [exact H3|].
    split; [exact H4|]. split.
    + rewrite H5. destruct hs as [|h' hs']; [|reflexivity].
      unfold clicks in H1. cbn [fold_left snd] in H1. cbn [p1 display].
      rewrite Hc1 in H1. now injection H1 as <-.
    + rewrite H6. cbn [p1 notifications map]. now rewrite <- app_assoc.
Qed.

(** X8: on a store that respects its primary key the page "/counter" puts
    the id of the default counter into the tab storage and shows that
    counter's card, count and last update; it never shows "Counter not
    found" or "No counter ID found", and raises no notification. *)
Theorem counter_page_shows_default (tab : option Z) (w : World) :
  store_wf w ->
  let c := fst (get_or_create_default_counter clock w) in
  let p := fst (counter_page clock strftime tab w) in
  let w1 := snd (counter_page clock strftime tab w) in
  name c = "default" /\
  w1 = snd (get_or_create_default_counter clock w) /\
  tab_counter_id p = Some (id c) /\
  display p = counter_card strftime c /\
  get_counter (id c) w1 = (Some c, w1) /\
  notifications p = [].
Proof.
  intros Hwf. destruct (default_counter_lookup w Hwf) as [Hn Hf].
  unfold counter_page, bind.
  destruct (get_or_create_default_counter clock w) as [c w1] eqn:E.
  cbn [fst snd] in *. rewrite (counter_display_found _ _ c Hf).
  unfold ret. cbn [fst snd tab_counter_id display notifications].
  repeat split; auto. unfold get_counter. rewrite session_get_eq. now rewrite Hf.
Qed.

(** X9: a click that cannot reach a counter changes nothing in the store
    and nothing on display.  With no id in the tab storage the page stays
    exactly as it is; with an id the store does not have, the handler's
    failure notification is raised and nothing else moves. *)
Theorem click_without_counter (h : Handler) (p : Page) (w : World) :
  (tab_counter_id p = None -> click clock strftime h p w = (p, w)) /\
  (forall i : Z,
      tab_counter_id p = Some i -> ~ present i w ->
      click clock strftime h p w =
      (mkPage (Some i) (header p) (display p) (footer p)
              (notifications p ++ [failure_notice h]), w)).
Proof.
  split.
  - intros Ht. unfold click, bind. rewrite Ht.
    destruct p as [t hd dp ft ns]. cbn in Ht. subst t.
    destruct h; cbn; rewrite app_nil_r; reflexivity.
  - intros i Ht Hab. apply absent_find in Hab.
    unfold click, bind. rewrite Ht, (handler_absent h i w Hab). reflexivity.
Qed.

(** X10: a click that reaches its counter raises the handler's success
    notification, stores the value the button stands for (one more, one
    less, zero) and shows the card of the record now stored. *)
Theorem click_updates_display (h : Handler) (p : Page) (i : Z) (w : World)
        (c : Counter) :
  tab_counter_id p = Some i ->
  fst (get_counter i w) = Some c ->
  let p' := fst (click clock strftime h p w) in
  let w' := snd (click clock strftime h p w) in
  exists c' : Counter,
    get_counter i w' = (Some c', w') /\
    value c' = click_value h (value c) /\
    name c' = name c /\
    display p' = counter_card strftime c' /\
    notifications p' = (notifications p ++ [success_notice h])%list /\
    tab_counter_id p' = Some i.
Proof.
  intros Ht Hc. cbn in Hc.
  destruct (click_found h p i w c Ht Hc) as [Hclick Hc'].
  rewrite Hclick. cbn [fst snd]. eexists. split.
  - unfold get_counter. rewrite session_get_eq, Hc'. reflexivity.
  - cbn. auto.
Qed.

(** X11: loading "/counter" on a store that respects its primary key and
    then clicking any sequence of buttons shows the card of the default
    counter with the count the clicks add up to: each "+" one more, each
    "-" one less, "Reset" back to zero, with no floor; every click raises
    its success notification. *)
Theorem counter_page_then_clicks (hs : list Handler) (tab : option Z)
        (w : World) :
  store_wf w ->
  let c := fst (get_or_create_default_counter clock w) in
  let p := fst (counter_page clock strftime tab w) in
  let w1 := snd (counter_page clock strftime tab w) in
  let p' := fst (clicks clock strftime hs p w1) in
  let w' := snd (clicks clock strftime hs p w1) in
  exists c' : Counter,
    get_counter (id c) w' = (Some c', w') /\
    name c' = "default" /\
    value c' = fold_left (fun v h => click_value h v) hs (value c) /\
    display p' = counter_card strftime c' /\
    notifications p' = map success_notice hs.
Proof.
  intros Hwf. destruct (default_counter_lookup w Hwf) as [Hn Hf].
  unfold counter_page, bind.
  destruct (get_or_create_default_counter clock w) as [c w1] eqn:E.
  cbn [fst snd] in *. rewrite (counter_display_found _ _ c Hf).
  unfold ret. cbn [fst snd].
  set (p := mkPage _ _ _ _ _).
  destruct (clicks_found hs p (id c) w1 c eq_refl Hf)
    as [c' [H1 [H2 [H3 [_ [H5 H6]]]]]].
  exists c'. split; [|split; [congruence | split; [exact H2 | split]]].
  - unfold get_counter. rewrite session_get_eq, H1. reflexivity.
  - rewrite H5. destruct hs as [|h hs']; [|reflexivity].
    unfold clicks in H1. cbn [fold_left snd] in H1.
    rewrite Hf in H1. now injection H1 as <-.
  - exact H6.
Qed.

(** X12: the page "/counter/{counter_id}" never changes the store.  For an
    id the store does not have it shows the not-found message naming the
    id, builds no display, hence no button, and leaves the tab storage as
    it was; for an id the store has it puts that id into the tab storage,
    shows the counter's card, and titles it with the counter's name unless
    that name is "default". *)
Theorem specific_counter_page_views (i : Z) (tab : option Z) (w : World) :
  snd (specific_counter_page strftime i tab w) = w /\
  (~ present i w ->
   fst (specific_counter_page strftime i tab w) =
   mkPage tab
     [Label "Counter Not Found";
      Label ("Counter with ID " ++ str i ++ " does not exist.");
      Link "← Go to Default Counter" "/counter"] [] [] []) /\
  (forall c : Counter,
      fst (get_counter i w) = Some c ->
      let p := fst (specific_counter_page strftime i tab w) in
      tab_counter_id p = Some i /\
      display p = counter_card strftime c /\
      header p = (if String.eqb (name c) "default" then []
                  else [Label ("Counter: " ++ name c)])).
Proof.
  unfold specific_counter_page, bind, get_counter. rewrite session_get_eq.
  destruct (find (has_id i) (rows (store w))) as [c|] eqn:Hf.
  - pose proof (find_has_id_key _ _ _ Hf) as Hk.
    assert (Hf' : find (has_id (id c)) (rows (store w)) = Some c)
      by now rewrite Hk.
    rewrite (counter_display_found _ _ c Hf'). cbn [fst snd].
    split; [reflexivity|]. split.
    + intros Hab. apply absent_find in Hab. congruence.
    + intros c0 Hc0. injection Hc0 as <-. cbn. rewrite Hk. auto.
  - cbn [fst snd ret]. split; [reflexivity|]. split; [reflexivity|].
    intros c Hc. discriminate Hc.
Qed.

End PageFacts.

(** ** The further properties on concrete stores and pages *)

(** A counter created beside another is read back under the id 2. *)
Lemma create_counter_then_get_witness :
  let w := run fine_clock [CallCreate (mkCounterCreate "a" 5)] empty_world in
  let c := mkCounter 2 "test_counter" 10 1002 1003 in
  store_wf w /\
  fst (create_counter fine_clock (mkCounterCreate "test_counter" 10) w) = c /\
  fst (get_counter 2
         (snd (create_counter fine_clock (mkCounterCreate "test_counter" 10) w)))
  = Some c.
Proof.
  intros w c.
  assert (Hwf : store_wf w) by (apply store_wf_run; exact store_wf_empty).
  split; [exact Hwf|]. split; [reflexivity|].
  destruct (create_counter_then_get fine_clock
              (mkCounterCreate "test_counter" 10) w Hwf)
    as [_ [_ [_ [_ [H _]]]]].
  exact (f_equal fst H).
Defined.

(** A second counter named "default", created by hand. *)
Lemma create_counter_checks_no_name_witness :
  let w := snd (get_or_create_default_counter fine_clock empty_world) in
  let d := mkCounterCreate "default" 7 in
  let w1 := snd (create_counter fine_clock d w) in
  create_name d = "default" /\
  default_count w = 1%nat /\
  default_count w1 = 2%nat /\
  snd (get_or_create_default_counter fine_clock w1) = w1.
Proof.
  intros w d w1.
  destruct (create_counter_checks_no_name fine_clock d w)
    as [_ [_ [_ [_ H]]]].
  destruct (H eq_refl) as [H1 [_ [_ H2]]].
  split; [reflexivity|]. split; [reflexivity|].
  split; [exact H1 | exact H2].
Defined.

(** The default counter on a store that already has it. *)
Lemma get_or_create_default_counter_idempotent_witness :
  let w := run fine_clock
             [CallCreate (mkCounterCreate "a" 5); CallGetOrCreateDefault]
             empty_world in
  In "default" (map name (rows (store w))) /\
  snd (get_or_create_default_counter fine_clock w) = w /\
  id (fst (get_or_create_default_counter fine_clock w)) = 2.
Proof.
  intros w.
  assert (Hin : In "default" (map name (rows (store w))))
    by (cbn; right; now left).
  split; [exact Hin|].
  destruct (get_or_create_default_counter_idempotent fine_clock w)
    as [_ [_ [_ H]]].
  split; [exact (H Hin) | reflexivity].
Defined.

(** The record an increment returns is the one read next. *)
Lemma returned_record_is_stored_witness :
  let w := run fine_clock [CallCreate (mkCounterCreate "a" 5)] empty_world in
  let c := mkCounter 1 "a" 6 1000 1002 in
  fst (increment_counter fine_clock 1 w) = Some c /\
  fst (get_counter 1 (snd (increment_counter fine_clock 1 w))) = Some c.
Proof.
  intros w c.
  assert (H : fst (increment_counter fine_clock 1 w) = Some c) by reflexivity.
  split; [exact H|].
  exact (f_equal fst
           (proj1 (returned_record_is_stored fine_clock 1
                     (mkCounterUpdate None) w) c H)).
Defined.

(** Four increments and three decrements in turn, from 0. *)
Lemma value_follows_ledger_witness :
  let w := run fine_clock
             [CallCreate (mkCounterCreate "concurrent_test" 0)] empty_world in
  let cs := [CallIncrement 1; CallIncrement 1; CallDecrement 1;
             CallIncrement 1; CallIncrement 1; CallDecrement 1;
             CallDecrement 1] in
  fst (get_counter 1 w) = Some (mkCounter 1 "concurrent_test" 0 1000 1001) /\
  exists c' : Counter,
    fst (get_counter 1 (run fine_clock cs w)) = Some c' /\ value c' = 1.
Proof.
  intros w cs. split; [reflexivity|].
  destruct (value_follows_ledger fine_clock 1 cs w _ eq_refl)
    as [c' [H1 [H2 _]]].
  exists c'. split; [exact (f_equal fst H1) | exact H2].
Defined.

(** Two calls within one reading of the coarse clock. *)
Lemma updated_at_never_goes_back_witness :
  clock_monotone coarse_clock /\
  fst (get_counter 1
         (run coarse_clock [CallCreate (mkCounterCreate "a" 5)] empty_world))
  = Some (mkCounter 1 "a" 5 1000 1000) /\
  exists c' : Counter,
    fst (get_counter 1
           (run coarse_clock [CallIncrement 1; CallReset 1]
              (run coarse_clock [CallCreate (mkCounterCreate "a" 5)]
                 empty_world))) = Some c' /\
    1000 <= updated_at c'.
Proof.
  split; [exact coarse_clock_monotone|]. split; [reflexivity|].
  exact (updated_at_never_goes_back coarse_clock 1
           [CallCreate (mkCounterCreate "a" 5)]
           [CallIncrement 1; CallReset 1] _ coarse_clock_monotone eq_refl).
Defined.

(** The default counter asked for twice among other calls. *)
Lemma default_counter_stays_single_witness :
  let cs := [CallGetOrCreateDefault; CallCreate (mkCounterCreate "a" 1);
             CallGetOrCreateDefault; CallIncrement 1] in
  store_wf empty_world /\
  (default_count empty_world <= 1)%nat /\
  existsb creates_default cs = false /\
  (default_count (run fine_clock cs empty_world) <= 1)%nat.
Proof.
  intros cs.
  assert (H0 : (default_count empty_world <= 1)%nat) by (cbn; lia).
  split; [exact store_wf_empty|]. split; [exact H0|]. split; [reflexivity|].
  exact (default_counter_stays_single fine_clock cs empty_world
           store_wf_empty H0 eq_refl).
Defined.

(** The page "/counter" on the empty store. *)
Lemma counter_page_shows_default_witness :
  store_wf empty_world /\
  let p := fst (counter_page fine_clock plain_strftime None empty_world) in
  tab_counter_id p = Some 1 /\
  display p = counter_card plain_strftime (mkCounter 1 "default" 0 1000 1001).
Proof.
  split; [exact store_wf_empty|].
  destruct (counter_page_shows_default fine_clock plain_strftime None
              empty_world store_wf_empty) as [_ [_ [H1 [H2 _]]]].
  split; [exact H1 | exact H2].
Defined.

(** A click with an empty tab storage, and one on an id never handed out. *)
Lemma click_without_counter_witness :
  let p := mkPage None [] [Label "No counter ID found"] [] [] in
  let q := mkPage (Some 99999) [] [Label "Counter not found"] [] [] in
  tab_counter_id p = None /\
  click fine_clock plain_strftime HandleIncrement p empty_world =
    (p, empty_world) /\
  ~ present 99999 empty_world /\
  click fine_clock plain_strftime HandleReset q empty_world =
    (mkPage (Some 99999) [] [Label "Counter not found"] []
            [("Failed to reset counter", negative)], empty_world).
Proof.
  intros p q.
  assert (Hab : ~ present 99999 empty_world) by (cbn; tauto).
  split; [reflexivity|]. split.
  - exact (proj1 (click_without_counter fine_clock plain_strftime
                    HandleIncrement p empty_world) eq_refl).
  - split; [exact Hab|].
    exact (proj2 (click_without_counter fine_clock plain_strftime
                    HandleReset q empty_world) 99999 eq_refl Hab).
Defined.

(** A click on "-" at 0 shows -1. *)
Lemma click_updates_display_witness :
  let w := snd (get_or_create_default_counter fine_clock empty_world) in
  let p := mkPage (Some 1) [] [] [] [] in
  fst (get_counter 1 w) = Some (mkCounter 1 "default" 0 1000 1001) /\
  exists c' : Counter,
    value c' = -1 /\
    display (fst (click fine_clock plain_strftime HandleDecrement p w)) =
    counter_card plain_strftime c'.
Proof.
  intros w p. split; [reflexivity|].
  destruct (click_updates_display fine_clock plain_strftime HandleDecrement
              p 1 w _ eq_refl eq_refl) as [c' [_ [H2 [_ [H4 _]]]]].
  exists c'. split; [exact H2 | exact H4].
Defined.

(** "+", "-", "-", "-" on a fresh default counter show -2. *)
Lemma counter_page_then_clicks_witness :
  let hs := [HandleIncrement; HandleDecrement; HandleDecrement;
             HandleDecrement] in
  let p := fst (counter_page fine_clock plain_strftime None empty_world) in
  let w1 := snd (counter_page fine_clock plain_strftime None empty_world) in
  store_wf empty_world /\
  exists c' : Counter,
    value c' = -2 /\
    display (fst (clicks fine_clock plain_strftime hs p w1)) =
    counter_card plain_strftime c'.
Proof.
  intros hs p w1. split; [exact store_wf_empty|].
  destruct (counter_page_then_clicks fine_clock plain_strftime hs None
              empty_world store_wf_empty) as [c' [_ [_ [H3 [H4 _]]]]].
  exists c'. split; [exact H3 | exact H4].
Defined.

(** The page of a counter that is not there, and of one that is. *)
Lemma specific_counter_page_views_witness :
  let w := run fine_clock [CallCreate (mkCounterCreate "a" 5)] empty_world in
  ~ present 99999 w /\
  header (fst (specific_counter_page plain_strftime 99999 (Some 1) w)) =
    [Label "Counter Not Found";
     Label "Counter with ID 99999 does not exist.";
     Link "← Go to Default Counter" "/counter"] /\
  fst (get_counter 1 w) = Some (mkCounter 1 "a" 5 1000 1001) /\
  header (fst (specific_counter_page plain_strftime 1 None w)) =
    [Label "Counter: a"].
Proof.
  intros w.
  assert (Hab : ~ present 99999 w).
  { unfold present. cbn. intros [H|[]]. discriminate H. }
  destruct (specific_counter_page_views plain_strftime 99999 (Some 1) w)
    as [_ [H1 _]].
  destruct (specific_counter_page_views plain_strftime 1 None w)
    as [_ [_ H2]].
  split; [exact Hab|]. split; [exact (f_equal header (H1 Hab))|].
  split; [reflexivity|].
  exact (proj2 (proj2 (H2 _ eq_refl))).
Defined.
